(** * The delivery rule-evaluation engine

    A shallow embedding of the service modules of the delivery scheduling
    application: [cartDelayCalculator], [dateAvailabilityService],
    [cityCutoffService], [slotAvailabilityService],
    [checkoutEligibilityValidator] and the row mapping of
    [deliveryConfigService], together with the part of the
    JavaScript runtime they rely on (strings, [parseInt], [Number], the
    [Date] object).

    Modelling conventions.
    - A JavaScript string is a Rocq [string]; its characters stand for the
      code units U+0000 .. U+00FF.
    - A JavaScript number holding an integer is a [Z]; [NaN] is [None] of
      [option Z].
    - A [Date] is its local time value in milliseconds (a [Z]); local time
      is at a fixed offset from UTC, and time values stay inside the range
      ECMAScript can represent.  The calendar functions follow ECMA-262
      ([Day], [DayFromYear], [MonthFromTime], [MakeDay], ...).
    - [undefined] and [null] are [None]; a [Set<string>] is a [gset string]. *)

From stdpp Require Import base gmap strings.
From Stdlib Require Import ZArith Lia List Bool Ascii String DecimalString DecimalZ Sorted.
From Equations Require Import Equations.
Import ListNotations.
Local Open Scope string_scope.
Local Open Scope Z_scope.

#[global] Arguments String.append !s1 s2 : simpl nomatch.

(** ** JavaScript strings *)

Module JsString.

Definition code (c : ascii) : Z := Z.of_N (N_of_ascii c).

Definition charOf (n : Z) : ascii := ascii_of_N (Z.to_N n).

(** [\d] *)
Definition isDigit (c : ascii) : bool := (48 <=? code c) && (code c <=? 57).

(** WhiteSpace and LineTerminator code units below 256: TAB, LF, VT, FF,
    CR, SP and NBSP. *)
Definition isWhiteSpace (c : ascii) : bool :=
  let n := code c in
  ((9 <=? n) && (n <=? 13)) || (n =? 32) || (n =? 160).

Fixpoint trimStart (s : string) : string :=
  match s with
  | String c r => if isWhiteSpace c then trimStart r else s
  | EmptyString => EmptyString
  end.

Fixpoint trimEnd (s : string) : string :=
  match s with
  | EmptyString => EmptyString
  | String c r =>
      match trimEnd r with
      | EmptyString => if isWhiteSpace c then EmptyString else String c EmptyString
      | r' => String c r'
      end
  end.

(** [String.prototype.trim] *)
Definition trim (s : string) : string := trimEnd (trimStart s).

Fixpoint mapChars (f : ascii -> ascii) (s : string) : string :=
  match s with
  | EmptyString => EmptyString
  | String c r => String (f c) (mapChars f r)
  end.

(** Lower-case mapping of one code unit below 256: A-Z, and the Latin-1
    capitals U+00C0 .. U+00DE except the multiplication sign U+00D7. *)
Definition lowerChar (c : ascii) : ascii :=
  let n := code c in
  if ((65 <=? n) && (n <=? 90))
     || ((192 <=? n) && (n <=? 222) && negb (n =? 215))
  then charOf (n + 32) else c.

(** [String.prototype.toLowerCase] *)
Definition toLowerCase (s : string) : string := mapChars lowerChar s.

(** Canonicalisation used by a regular expression with the [i] flag when
    the pattern character is an ASCII letter, digit or punctuation: only
    A-Z and a-z are identified. *)
Definition foldChar (c : ascii) : ascii :=
  let n := code c in
  if (65 <=? n) && (n <=? 90) then charOf (n + 32) else c.

Definition foldCase (s : string) : string := mapChars foldChar s.

Fixpoint allDigits (s : string) : bool :=
  match s with
  | EmptyString => true
  | String c r => isDigit c && allDigits r
  end.

(** Longest prefix of digits, and what follows it: the greedy [\d*]. *)
Fixpoint spanDigits (s : string) : string * string :=
  match s with
  | String c r =>
      if isDigit c then let (d, t) := spanDigits r in (String c d, t) else (EmptyString, s)
  | EmptyString => (EmptyString, EmptyString)
  end.

(** Exactly [n] digits at the start: [\d{n}]. *)
Fixpoint takeDigits (n : nat) (s : string) : option (string * string) :=
  match n with
  | O => Some (EmptyString, s)
  | S n' =>
      match s with
      | String c r =>
          if isDigit c then
            match takeDigits n' r with
            | Some (d, t) => Some (String c d, t)
            | None => None
            end
          else None
      | EmptyString => None
      end
  end.

(** Canonicalisation without the [i] flag: none. *)
Definition asIs (c : ascii) : ascii := c.

(** A literal pattern at the start of the input, compared after
    canonicalisation by [canon]. *)
Fixpoint literal (canon : ascii -> ascii) (p s : string) : option string :=
  match p with
  | EmptyString => Some s
  | String pc p' =>
      match s with
      | String c r => if Ascii.eqb (canon pc) (canon c) then literal canon p' r else None
      | EmptyString => None
      end
  end.

(** [$] without the [m] flag *)
Definition atEnd (s : string) : bool :=
  match s with EmptyString => true | _ => false end.

Definition digitValue (c : ascii) : Z := code c - 48.

Fixpoint decimalAcc (acc : Z) (s : string) : Z :=
  match s with
  | EmptyString => acc
  | String c r => decimalAcc (acc * 10 + digitValue c) r
  end.

(** The mathematical value of a string of decimal digits. *)
Definition decimalValue (s : string) : Z := decimalAcc 0 s.

(** [parseInt(s, 10)], and [parseInt(s)] on input that does not start
    with [0x]: leading white space, an optional sign, then the longest
    run of digits; [None] is [NaN]. *)
Definition parseInt (s : string) : option Z :=
  let t := trimStart s in
  let '(sign, u) :=
    match t with
    | String "-" r => (-1, r)
    | String "+" r => (1, r)
    | _ => (1, t)
    end in
  match fst (spanDigits u) with
  | EmptyString => None
  | d => Some (sign * decimalValue d)
  end.

(** [Number(s)] on the strings that reach it here, which are runs of
    digits with optional white space around them: the empty string is 0,
    a run of digits is its value, anything else is [NaN].  Signs,
    fractions, exponents and radix prefixes are not modelled. *)
Definition Number (s : string) : option Z :=
  match trim s with
  | EmptyString => Some 0
  | d => if allDigits d then Some (decimalValue d) else None
  end.

(** [String(n)] and [`${n}`] for an integer [n]. *)
Definition ofNumber (n : Z) : string := NilEmpty.string_of_int (Z.to_int n).

Fixpoint repeatChar (n : nat) (c : ascii) : string :=
  match n with
  | O => EmptyString
  | S n' => String c (repeatChar n' c)
  end.

(** [s.padStart(n, c)] for a one-character filler [c]. *)
Definition padStart (n : nat) (c : ascii) (s : string) : string :=
  repeatChar (n - String.length s) c ++ s.

(** [s.split(sep)] for a one-character separator. *)
Fixpoint split (sep : ascii) (s : string) : list string :=
  match s with
  | EmptyString => [EmptyString]
  | String c r =>
      if Ascii.eqb c sep then EmptyString :: split sep r
      else
        match split sep r with
        | h :: t => String c h :: t
        | [] => [String c EmptyString]
        end
  end.

(** [s.replace(/\D/g, "")] *)
Fixpoint digitsOnly (s : string) : string :=
  match s with
  | EmptyString => EmptyString
  | String c r => if isDigit c then String c (digitsOnly r) else digitsOnly r
  end.

(** Truthiness of a string: the empty string is falsy. *)
Definition truthy (s : string) : bool := negb (atEnd s).

End JsString.

Import JsString.

Example trim_ex :
  trim "  9:05 " = "9:05" /\ trim " a b  " = "a b" /\ trim "   " = "" /\ trim "" = "".
Proof. repeat split; reflexivity. Qed.

Example toLowerCase_ex : toLowerCase "Cake-DELAY-2" = "cake-delay-2".
Proof. reflexivity. Qed.

Example parseInt_ex : parseInt "0042" = Some 42 /\ parseInt "x" = None.
Proof. split; reflexivity. Qed.

Example split_ex : split "-" "2024-12-25" = ["2024"; "12"; "25"].
Proof. reflexivity. Qed.

Example ofNumber_ex : ofNumber 2024 = "2024" /\ ofNumber (-3) = "-3" /\ ofNumber 0 = "0".
Proof. repeat split; reflexivity. Qed.

(** ** The Date object *)

Module JsDate.

Definition msPerDay : Z := 86400000.
Definition msPerHour : Z := 3600000.
Definition msPerMinute : Z := 60000.

Definition Day (t : Z) : Z := t / msPerDay.
Definition TimeWithinDay (t : Z) : Z := t mod msPerDay.

Definition DaysInYear (y : Z) : Z :=
  if negb (y mod 4 =? 0) then 365
  else if negb (y mod 100 =? 0) then 366
  else if negb (y mod 400 =? 0) then 365
  else 366.

(** Day number of the first day of year [y]. *)
Definition DayFromYear (y : Z) : Z :=
  365 * (y - 1970) + (y - 1969) / 4 - (y - 1901) / 100 + (y - 1601) / 400.

(** The year containing day [d]: the largest [y] with
    [DayFromYear y <= d].  The estimate from the mean length of a year is
    off by at most one. *)
Definition YearFromDay (d : Z) : Z :=
  let y := 1970 + (400 * d) / 146097 in
  if DayFromYear (y + 1) <=? d then y + 1
  else if d <? DayFromYear y then y - 1
  else y.

Definition InLeapYear (d : Z) : Z :=
  if DaysInYear (YearFromDay d) =? 366 then 1 else 0.

Definition DayWithinYear (d : Z) : Z := d - DayFromYear (YearFromDay d).

Definition MonthFromDay (d : Z) : Z :=
  let w := DayWithinYear d in
  let l := InLeapYear d in
  if w <? 31 then 0
  else if w <? 59 + l then 1
  else if w <? 90 + l then 2
  else if w <? 120 + l then 3
  else if w <? 151 + l then 4
  else if w <? 181 + l then 5
  else if w <? 212 + l then 6
  else if w <? 243 + l then 7
  else if w <? 273 + l then 8
  else if w <? 304 + l then 9
  else if w <? 334 + l then 10
  else 11.

Definition DateFromDay (d : Z) : Z :=
  let w := DayWithinYear d in
  let l := InLeapYear d in
  match MonthFromDay d with
  | 0 => w + 1
  | 1 => w - 30
  | 2 => w - 58 - l
  | 3 => w - 89 - l
  | 4 => w - 119 - l
  | 5 => w - 150 - l
  | 6 => w - 180 - l
  | 7 => w - 211 - l
  | 8 => w - 242 - l
  | 9 => w - 272 - l
  | 10 => w - 303 - l
  | _ => w - 333 - l
  end.

(** Days from the start of a year to the start of month [m] (0 .. 11),
    [l] being 1 in a leap year. *)
Definition monthStart (m l : Z) : Z :=
  match m with
  | 0 => 0
  | 1 => 31
  | 2 => 59 + l
  | 3 => 90 + l
  | 4 => 120 + l
  | 5 => 151 + l
  | 6 => 181 + l
  | 7 => 212 + l
  | 8 => 243 + l
  | 9 => 273 + l
  | 10 => 304 + l
  | _ => 334 + l
  end.

(** Length of month [m] (1 .. 12) of year [y]. *)
Definition DaysInMonth (y m : Z) : Z :=
  match m with
  | 1 | 3 | 5 | 7 | 8 | 10 | 12 => 31
  | 4 | 6 | 9 | 11 => 30
  | 2 => if DaysInYear y =? 366 then 29 else 28
  | _ => 0
  end.

(** [MakeDay(year, month, date)]: months outside 0 .. 11 carry into the
    year, and the date counts from the first of the month with no upper
    limit. *)
Definition MakeDay (year month date : Z) : Z :=
  let ym := year + month / 12 in
  let mn := month mod 12 in
  let l := if DaysInYear ym =? 366 then 1 else 0 in
  DayFromYear ym + monthStart mn l + date - 1.

Definition MakeDate (day time : Z) : Z := day * msPerDay + time.

(** A Date holds its local time value. *)
Record Date : Type := mkDate { timeValue : Z }.

(** [new Date(year, monthIndex, day)]: local midnight; a year from 0 to
    99 stands for 1900 + year. *)
Definition newDate (year month day : Z) : Date :=
  let yr := if (0 <=? year) && (year <=? 99) then 1900 + year else year in
  mkDate (MakeDate (MakeDay yr month day) 0).

(** [new Date(date)] *)
Definition copyDate (d : Date) : Date := mkDate (timeValue d).

Definition getFullYear (d : Date) : Z := YearFromDay (Day (timeValue d)).
Definition getMonth (d : Date) : Z := MonthFromDay (Day (timeValue d)).
Definition getDate (d : Date) : Z := DateFromDay (Day (timeValue d)).
Definition getHours (d : Date) : Z := (timeValue d / msPerHour) mod 24.
Definition getMinutes (d : Date) : Z := (timeValue d / msPerMinute) mod 60.

(** [d.setDate(n)]: the day of the month is replaced, the time of day is
    kept. *)
Definition setDate (d : Date) (n : Z) : Date :=
  let t := timeValue d in
  mkDate (MakeDate (MakeDay (YearFromDay (Day t)) (MonthFromDay (Day t)) n)
                   (TimeWithinDay t)).

(** [a <= b] on Dates compares time values. *)
Definition leDate (a b : Date) : bool := timeValue a <=? timeValue b.

(** The Date of a local wall-clock reading, as
    [new Date(y, m - 1, d, hh, mm)] builds it for a four-digit year. *)
Definition localDateTime (y m d hh mm : Z) : Date :=
  mkDate (MakeDate (MakeDay y (m - 1) d) (hh * msPerHour + mm * msPerMinute)).

(** *** What the termination of loops over days needs *)

Ltac divmod := Z.div_mod_to_equations; lia.

Ltac compare_lt :=
  repeat match goal with
         | |- context [?a <? ?b] => destruct (Z.ltb_spec a b)
         end;
  try reflexivity; lia.

Lemma MonthFromDay_range d : 0 <= MonthFromDay d <= 11.
Proof.
  unfold MonthFromDay.
  repeat match goal with |- context [?a <? ?b] => destruct (a <? b) end; lia.
Qed.

Lemma monthStart_DateFromDay d :
  monthStart (MonthFromDay d) (InLeapYear d) + DateFromDay d - 1 = DayWithinYear d.
Proof.
  unfold DateFromDay, monthStart, MonthFromDay.
  repeat match goal with |- context [?a <? ?b] => destruct (a <? b) end; lia.
Qed.

(** Building a day from the fields of day [d], with the date shifted by
    [n], lands [n] days after [d]. *)
Lemma MakeDay_fields d n :
  MakeDay (YearFromDay d) (MonthFromDay d) (DateFromDay d + n) = d + n.
Proof.
  pose proof (MonthFromDay_range d) as Hm.
  pose proof (monthStart_DateFromDay d) as Hs.
  unfold MakeDay.
  rewrite Z.div_small, Z.mod_small, Z.add_0_r by lia.
  fold (InLeapYear d). unfold DayWithinYear in Hs. lia.
Qed.

(** [d.setDate(d.getDate() + n)] moves the time value by [n] days. *)
Lemma setDate_shift d n :
  timeValue (setDate d (getDate d + n)) = timeValue d + n * msPerDay.
Proof.
  unfold setDate, getDate. cbn [timeValue].
  rewrite MakeDay_fields. unfold MakeDate, Day, TimeWithinDay, msPerDay. divmod.
Qed.

End JsDate.

Import JsDate.

Example date_fields_ex :
  let d := localDateTime 2024 12 24 15 30 in
  (getFullYear d, getMonth d, getDate d, getHours d, getMinutes d) = (2024, 11, 24, 15, 30).
Proof. reflexivity. Qed.

Example setDate_rollover_ex :
  let d := setDate (newDate 2024 1 29) 31 in
  (getFullYear d, getMonth d, getDate d) = (2024, 2, 2).
Proof. reflexivity. Qed.

(** ** Values and completions *)

(** The values a caller can hand over where a tag is expected. *)
Inductive JsValue : Type :=
| VUndefined
| VNull
| VNumber (n : Z)
| VString (s : string).

Inductive JsError : Type := TypeError.

(** How a call ends: with a value, or by throwing. *)
Inductive Completion (A : Type) : Type :=
| Returns (a : A)
| Throws (e : JsError).
Arguments Returns {A} a.
Arguments Throws {A} e.

(** Truthiness of an optional numeric id: [undefined], [null] and 0 are
    falsy. *)
Definition truthyId (o : option Z) : bool :=
  match o with
  | Some n => negb (n =? 0)
  | None => false
  end.

(** [a === b] on optional numeric ids. *)
Definition strictEqId (a b : option Z) : bool :=
  match a, b with
  | Some x, Some y => x =? y
  | None, None => true
  | _, _ => false
  end.

(** Truthiness of an optional string: absent and empty are falsy. *)
Definition truthyStr (o : option string) : bool :=
  match o with
  | Some s => truthy s
  | None => false
  end.

(** ** cartDelayCalculator.ts *)

Module CartDelay.

(** [(?:-(\d+))?$] : the capture, when the group took part. *)
Definition delaySuffix (s : string) : option (option string) :=
  let withGroup :=
    r ← literal foldChar "-" s;
    let (d, t) := spanDigits r in
    if truthy d && atEnd t then Some d else None in
  match withGroup with
  | Some d => Some (Some d)
  | None => if atEnd s then Some None else None
  end.

(** [delay(?:-(\d+))?$] *)
Definition delayBody (s : string) : option (option string) :=
  r ← literal foldChar "delay" s; delaySuffix r.

(** [s.match(/^(?:cake-)?delay(?:-(\d+))?$/i)]: [None] when there is no
    match, otherwise capture group 1 ([None] for [undefined]). *)
Definition DELAY_TAG_PATTERN (s : string) : option (option string) :=
  match r ← literal foldChar "cake-" s; delayBody r with
  | Some m => Some m
  | None => delayBody s
  end.

(** [isNaN(delayValue) || delayValue < 0 ? 0 : delayValue] *)
Definition validDelay (delayValue : option Z) : Z :=
  match delayValue with
  | None => 0
  | Some v => if v <? 0 then 0 else v
  end.

Definition parseDelayFromTag (tag : string) : Z :=
  let normalizedTag := toLowerCase (trim tag) in
  match DELAY_TAG_PATTERN normalizedTag with
  | None => 0
  | Some group1 =>
      let delayValue :=
        match group1 with
        | Some g => if truthy g then parseInt g else Some 1
        | None => Some 1
        end in
      validDelay delayValue
  end.

(** The same function applied to whatever value arrives: [tag.trim()]
    throws a TypeError when [tag] is [undefined] or [null], and when it
    is a number (which has no [trim] method). *)
Definition parseDelayFromTagValue (tag : JsValue) : Completion Z :=
  match tag with
  | VString s => Returns (parseDelayFromTag s)
  | VUndefined | VNull | VNumber _ => Throws TypeError
  end.

(** The [tags] field of a cart line as it may arrive. *)
Inductive Tags : Type :=
| TagArray (ts : list string)
| TagsMissing
| TagsNotArray (v : JsValue).

Record CartProduct : Type := { tags : Tags }.

Definition getProductDelay (product : CartProduct) : Z :=
  match tags product with
  | TagArray ts =>
      fold_left (fun maxDelay tag => Z.max maxDelay (parseDelayFromTag tag)) ts 0
  | TagsMissing | TagsNotArray _ => 0
  end.

Definition calculateCartDelay (products : list CartProduct) : Z :=
  if (List.length products =? 0)%nat then 0
  else
    fold_left (fun maxDelay product => Z.max maxDelay (getProductDelay product))
              products 0.

End CartDelay.

Example parseDelayFromTag_ex :
  map CartDelay.parseDelayFromTag
      ["delay"; "delay-2"; "cake-delay-3"; "other-tag"; " Cake-DELAY-07 "; "delay-"; "delay-0"]
  = [1; 2; 3; 0; 7; 0; 0].
Proof. reflexivity. Qed.

(** ** Loops *)

Definition inspect {A : Type} (a : A) : {b : A | a = b} := exist _ a eq_refl.

Section WhileLoop.

(** [while (cond(x)) { s = body(x, s); x = step(x) }] for a loop whose
    variable [x] gets closer to making [cond] false at each turn. *)
Context {X A : Type}.
Variable cond : X -> bool.
Variable step : X -> X.
Variable body : X -> A -> A.
Variable left : X -> nat.
Hypothesis left_step : forall x, cond x = true -> (left (step x) < left x)%nat.

Equations while (x : X) (s : A) : A by wf (left x) lt :=
  while x s with inspect (cond x) := {
    | exist _ true _ => while (step x) (body x s)
    | exist _ false _ => s }.




End WhileLoop.

(** ** dateAvailabilityService.ts *)

Module DateAvailability.

(** [/^(\d{4})-(\d{2})-(\d{2})$/] : the captures (year, month, day). *)
Definition isoPattern (s : string) : option (string * string * string) :=
  '(year, r1) ← takeDigits 4 s;
  r2 ← literal asIs "-" r1;
  '(month, r3) ← takeDigits 2 r2;
  r4 ← literal asIs "-" r3;
  '(day, r5) ← takeDigits 2 r4;
  if atEnd r5 then Some (year, month, day) else None.

(** [/^(\d{2})\/(\d{2})\/(\d{4})$/] : the captures (day, month, year). *)
Definition euroPattern (s : string) : option (string * string * string) :=
  '(day, r1) ← takeDigits 2 s;
  r2 ← literal asIs "/" r1;
  '(month, r3) ← takeDigits 2 r2;
  r4 ← literal asIs "/" r3;
  '(year, r5) ← takeDigits 4 r4;
  if atEnd r5 then Some (day, month, year) else None.

Definition isValidDateComponents (year month day : Z) : bool :=
  if (month <? 1) || (month >? 12) then false
  else if (day <? 1) || (day >? 31) then false
  else
    let date := newDate year (month - 1) day in
    (getFullYear date =? year) && (getMonth date =? month - 1) && (getDate date =? day).

(** A [NaN] component fails every comparison of the validity check;
    [parseInt] of captured digits is never [NaN]. *)
Definition validComponents (year month day : option Z) : bool :=
  match year, month, day with
  | Some y, Some m, Some d => isValidDateComponents y m d
  | _, _, _ => false
  end.

Definition normalizeDate (dateStr : string) : option string :=
  if negb (truthy dateStr) then None
  else
    let trimmed := trim dateStr in
    match isoPattern trimmed with
    | Some (year, month, day) =>
        if validComponents (parseInt year) (parseInt month) (parseInt day)
        then Some trimmed
        else None
    | None =>
        match euroPattern trimmed with
        | Some (day, month, year) =>
            if validComponents (parseInt year) (parseInt month) (parseInt day)
            then Some (year ++ "-" ++ padStart 2 "0" month ++ "-" ++ padStart 2 "0" day)
            else None
        | None => None
        end
    end.

Definition formatDateToString (date : Date) : string :=
  let year := getFullYear date in
  let month := padStart 2 "0" (ofNumber (getMonth date + 1)) in
  let day := padStart 2 "0" (ofNumber (getDate date)) in
  ofNumber year ++ "-" ++ month ++ "-" ++ day.

(** [None] is [null].  A normalized string always splits into three
    runs of digits, so the last two branches (a missing or [NaN]
    component, which would give an invalid Date) are never taken. *)
Definition parseDate (dateStr : string) : option Date :=
  match normalizeDate dateStr with
  | None => None
  | Some normalized =>
      if negb (truthy normalized) then None
      else
        match map Number (split "-" normalized) with
        | Some year :: Some month :: Some day :: _ => Some (newDate year (month - 1) day)
        | _ => None
        end
  end.

Definition normalizeDisabledDates (disabledDates : list string) : gset string :=
  fold_left
    (fun normalized dateStr =>
       match normalizeDate dateStr with
       | Some normalizedDate =>
           if truthy normalizedDate then {[ normalizedDate ]} ∪ normalized else normalized
       | None => normalized
       end)
    disabledDates ∅.

Definition isDateInDisableRange (date startDate : string) (endDate : option string) : bool :=
  if String.ltb date startDate then false
  else
    match endDate with
    | Some e => if truthy e && String.ltb e date then false else true
    | None => true
    end.

Record DateRule : Type :=
  { startDate : string; endDate : option string; cityId : option Z }.

Definition nextDay (current : Date) : Date :=
  let current' := copyDate current in
  setDate current' (getDate current' + 1).

Lemma nextDay_timeValue current :
  timeValue (nextDay current) = timeValue current + msPerDay.
Proof.
  unfold nextDay. rewrite setDate_shift. unfold copyDate. cbn [timeValue]. lia.
Qed.

Lemma nextDay_Day current :
  Day (timeValue (nextDay current)) = Day (timeValue current) + 1.
Proof. rewrite nextDay_timeValue. unfold Day, msPerDay. Z.div_mod_to_equations; lia. Qed.

Lemma leDate_Day a b : leDate a b = true -> Day (timeValue a) <= Day (timeValue b).
Proof.
  unfold leDate, Day, msPerDay. intros H%Z.leb_le. Z.div_mod_to_equations; lia.
Qed.

(** Whole days from [current] to [end_], the bound on the loop below. *)
Definition daysLeft (current end_ : Date) : nat :=
  Z.to_nat (Day (timeValue end_) - Day (timeValue current) + 1).

Lemma daysLeft_nextDay current end_ :
  leDate current end_ = true ->
  (daysLeft (nextDay current) end_ < daysLeft current end_)%nat.
Proof.
  intros H%leDate_Day. unfold daysLeft. rewrite nextDay_Day. lia.
Qed.

(** The loop [while (current <= end) { disabled.add(...); current = next day }]. *)
Definition disableRange (current end_ : Date) (disabled : gset string) : gset string :=
  while (fun current => leDate current end_)
        nextDay
        (fun current disabled => {[ formatDateToString current ]} ∪ disabled)
        (fun current => daysLeft current end_)
        (fun current => daysLeft_nextDay current end_)
        current disabled.

(** [!rule.cityId || (cityId && rule.cityId === cityId)] *)
Definition ruleApplies (rule : DateRule) (city : option Z) : bool :=
  negb (truthyId (cityId rule)) || (truthyId city && strictEqId (cityId rule) city).

Definition buildDisabledDateSet (dateRules : list DateRule) (city : option Z)
  : gset string :=
  fold_left
    (fun disabled rule =>
       if negb (ruleApplies rule city) then disabled
       else
         let startDate' := normalizeDate (startDate rule) in
         let endDate' :=
           match endDate rule with
           | Some e => if truthy e then normalizeDate e else None
           | None => None
           end in
         match startDate' with
         | None => disabled
         | Some s =>
             if negb (truthy s) then disabled
             else
               let current := parseDate s in
               let end_ :=
                 match endDate' with
                 | Some e => if truthy e then parseDate e else current
                 | None => current
                 end in
               match current, end_ with
               | Some c, Some e => disableRange c e disabled
               | _, _ => disabled
               end
         end)
    dateRules ∅.

Inductive DisableSource : Type :=
| DisabledStrings (dates : list string)
| DisabledRules (rules : list DateRule).

(** The body of [for (let i = 0; i < daysToShow; i++)], run [n] times. *)
Fixpoint walkDays (n : nat) (disabledSet : gset string) (currentDate : Date)
         (availableDates : list string) : list string :=
  match n with
  | O => availableDates
  | S n' =>
      let dateStr := formatDateToString currentDate in
      let availableDates' :=
        if bool_decide (dateStr ∈ disabledSet) then availableDates
        else (availableDates ++ [dateStr])%list in
      walkDays n' disabledSet (setDate currentDate (getDate currentDate + 1)) availableDates'
  end.

Definition getAvailableDates (startDate : Date) (daysToShow : Z)
           (disabledDates : DisableSource) (city : option Z) : list string :=
  if daysToShow <=? 0 then []
  else
    let disabledSet :=
      match disabledDates with
      | DisabledStrings [] | DisabledRules [] => ∅
      | DisabledStrings ds => normalizeDisabledDates ds
      | DisabledRules rs => buildDisabledDateSet rs city
      end in
    walkDays (Z.to_nat daysToShow) disabledSet (copyDate startDate) [].

(** [isDateAvailable] for a date given as a string, and as a Date. *)
Definition isDateAvailableStr (date : string) (disabledDates : list string) : bool :=
  match normalizeDate date with
  | None => false
  | Some dateStr =>
      if negb (truthy dateStr) then false
      else negb (bool_decide (dateStr ∈ normalizeDisabledDates disabledDates))
  end.


Definition addDays (date : Date) (days : Z) : Date :=
  let result := copyDate date in
  setDate result (getDate result + days).

End DateAvailability.

Example normalizeDate_ex :
  map DateAvailability.normalizeDate
      ["2024-12-25"; "25/12/2024"; "invalid"; "31/02/2024"; "2024-13-01"; " 2024-02-29 "; "0050-01-01"]
  = [Some "2024-12-25"; Some "2024-12-25"; None; None; None; Some "2024-02-29"; None].
Proof. vm_compute. reflexivity. Qed.

Example getAvailableDates_strings_ex :
  DateAvailability.getAvailableDates (newDate 2024 11 24) 7
    (DateAvailability.DisabledStrings ["2024-12-25"; "26/12/2024"]) None
  = ["2024-12-24"; "2024-12-27"; "2024-12-28"; "2024-12-29"; "2024-12-30"].
Proof. vm_compute. reflexivity. Qed.

Example getAvailableDates_rules_ex :
  DateAvailability.getAvailableDates (newDate 2024 11 24) 7
    (DateAvailability.DisabledRules
       [ {| DateAvailability.startDate := "2024-12-25";
            DateAvailability.endDate := Some "2024-12-26";
            DateAvailability.cityId := None |} ]) None
  = ["2024-12-24"; "2024-12-27"; "2024-12-28"; "2024-12-29"; "2024-12-30"].
Proof. vm_compute. reflexivity. Qed.

(** ** cityCutoffService.ts *)

Module CityCutoff.

Import DateAvailability.

Definition DEFAULT_CUTOFF_TIME : string := "23:59".

Record TimeOfDay : Type := { hours : Z; minutes : Z }.

(** [:(\d{2})$] : the minutes capture. *)
Definition minutesPart (s : string) : option string :=
  r1 ← literal asIs ":" s;
  '(m, r2) ← takeDigits 2 r1;
  if atEnd r2 then Some m else None.

(** [(\d{n}):(\d{2})$] : the captures (hours, minutes). *)
Definition timeAttempt (n : nat) (s : string) : option (string * string) :=
  '(h, r) ← takeDigits n s;
  m ← minutesPart r;
  Some (h, m).

(** [/^(\d{1,2}):(\d{2})$/] : the greedy [\d{1,2}] tries two digits
    before one. *)
Definition timePattern (s : string) : option (string * string) :=
  match timeAttempt 2 s with
  | Some hm => Some hm
  | None => timeAttempt 1 s
  end.

(** [None] is [null].  [parseInt] of captured digits is never [NaN], so
    the branch for a [NaN] component is never taken. *)
Definition parseTime (timeStr : string) : option TimeOfDay :=
  if negb (truthy timeStr) then None
  else
    match timePattern (trim timeStr) with
    | None => None
    | Some (h, m) =>
        match parseInt h, parseInt m with
        | Some hours, Some minutes =>
            if (hours <? 0) || (hours >? 23) || (minutes <? 0) || (minutes >? 59)
            then None
            else Some {| hours := hours; minutes := minutes |}
        | _, _ => None
        end
    end.

Record DeliveryCity : Type :=
  { id : Z; name : string; isSpecial : bool; cutoffTime : option string }.

(** [city.cutoffTime || DEFAULT_CUTOFF_TIME] *)
Definition getCityCutoffTime (city : DeliveryCity) : string :=
  match cutoffTime city with
  | Some t => if truthy t then t else DEFAULT_CUTOFF_TIME
  | None => DEFAULT_CUTOFF_TIME
  end.

Definition isBeforeCutoff (cutoffTime : string) (currentTime : Date) : bool :=
  match parseTime cutoffTime with
  | None => false
  | Some parsed =>
      let currentHours := getHours currentTime in
      let currentMinutes := getMinutes currentTime in
      if currentHours <? hours parsed then true
      else if (currentHours =? hours parsed) && (currentMinutes <? minutes parsed) then true
      else false
  end.

Definition isSameDayDeliveryAvailable (city : DeliveryCity) (currentTime : Date) : bool :=
  let cutoffTime := getCityCutoffTime city in
  isBeforeCutoff cutoffTime currentTime.



Definition getTimeUntilCutoff (city : DeliveryCity) (currentTime : Date)
  : option TimeOfDay :=
  let cutoffTime := getCityCutoffTime city in
  match parseTime cutoffTime with
  | None => None
  | Some parsed =>
      if negb (isBeforeCutoff cutoffTime currentTime) then None
      else
        let currentMinutes := getHours currentTime * 60 + getMinutes currentTime in
        let cutoffMinutes := hours parsed * 60 + minutes parsed in
        let diffMinutes := cutoffMinutes - currentMinutes in
        Some {| hours := diffMinutes / 60; minutes := Z.rem diffMinutes 60 |}
  end.

End CityCutoff.

Example getTimeUntilCutoff_ex :
  CityCutoff.getTimeUntilCutoff
    {| CityCutoff.id := 1; CityCutoff.name := "Downtown"; CityCutoff.isSpecial := false;
       CityCutoff.cutoffTime := Some "14:00" |}
    (localDateTime 2024 12 24 12 30)
  = Some {| CityCutoff.hours := 1; CityCutoff.minutes := 30 |}.
Proof. vm_compute. reflexivity. Qed.

Example parseTime_ex :
  map CityCutoff.parseTime ["14:30"; "9:05"; "invalid"; "24:00"; "123:45"; " 0:00 "]
  = [Some {| CityCutoff.hours := 14; CityCutoff.minutes := 30 |};
     Some {| CityCutoff.hours := 9; CityCutoff.minutes := 5 |};
     None; None; None;
     Some {| CityCutoff.hours := 0; CityCutoff.minutes := 0 |}].
Proof. vm_compute. reflexivity. Qed.

(** ** slotAvailabilityService.ts *)

Module SlotAvailability.

Record TimeSlot : Type :=
  { id : Z; startTime : string; endTime : string; isActive : bool; label : option string }.

Record SlotDisableRule : Type :=
  { timeSlotId : Z;
    cityId : option Z;
    startDate : string;
    endDate : option string;
    reason : option string }.

Record SlotAvailabilityResult : Type :=
  { slot : TimeSlot; disabled : bool; resultReason : option string }.

(** The outcome of one of the three checks. *)
Record Check : Type := { checkDisabled : bool; checkReason : option string }.

(** Strings compare by code units, position by position. *)
Definition isDateInRange (date startDate : string) (endDate : option string) : bool :=
  if String.ltb date startDate then false
  else
    match endDate with
    | Some e => if truthy e && String.ltb e date then false else true
    | None => true
    end.

Definition checkSlotActive (slot : TimeSlot) : Check :=
  if negb (isActive slot)
  then {| checkDisabled := true; checkReason := Some "Slot is inactive" |}
  else {| checkDisabled := false; checkReason := None |}.

Definition checkDateSpecificDisable (slotId : Z) (date : string)
           (rules : list SlotDisableRule) : Check :=
  let dateRule :=
    find (fun rule =>
            (timeSlotId rule =? slotId)
            && negb (truthyId (cityId rule))
            && isDateInRange date (startDate rule) (endDate rule))
         rules in
  match dateRule with
  | Some dateRule =>
      {| checkDisabled := true;
         checkReason :=
           Some (match reason dateRule with
                 | Some r => if truthy r then "Disabled: " ++ r else "Disabled on " ++ date
                 | None => "Disabled on " ++ date
                 end) |}
  | None => {| checkDisabled := false; checkReason := None |}
  end.

Definition checkCityDateDisable (slotId : Z) (date : string) (city : Z)
           (rules : list SlotDisableRule) : Check :=
  let cityDateRule :=
    find (fun rule =>
            (timeSlotId rule =? slotId)
            && match cityId rule with Some c => c =? city | None => false end
            && isDateInRange date (startDate rule) (endDate rule))
         rules in
  match cityDateRule with
  | Some cityDateRule =>
      {| checkDisabled := true;
         checkReason :=
           Some (match reason cityDateRule with
                 | Some r =>
                     if truthy r then "Disabled: " ++ r
                     else "Disabled for this city on " ++ date
                 | None => "Disabled for this city on " ++ date
                 end) |}
  | None => {| checkDisabled := false; checkReason := None |}
  end.

Definition checkSlotAvailability (slot : TimeSlot) (date : string) (city : option Z)
           (rules : list SlotDisableRule) : SlotAvailabilityResult :=
  let activeCheck := checkSlotActive slot in
  if checkDisabled activeCheck
  then {| slot := slot; disabled := true; resultReason := checkReason activeCheck |}
  else
    let dateCheck := checkDateSpecificDisable (id slot) date rules in
    if checkDisabled dateCheck
    then {| slot := slot; disabled := true; resultReason := checkReason dateCheck |}
    else
      let available := {| slot := slot; disabled := false; resultReason := None |} in
      match city with
      | Some c =>
          if truthyId city then
            let cityDateCheck := checkCityDateDisable (id slot) date c rules in
            if checkDisabled cityDateCheck
            then {| slot := slot; disabled := true;
                    resultReason := checkReason cityDateCheck |}
            else available
          else available
      | None => available
      end.

Definition getAvailableSlots (slots : list TimeSlot) (date : string) (city : option Z)
           (rules : list SlotDisableRule) : list SlotAvailabilityResult :=
  map (fun slot => checkSlotAvailability slot date city rules) slots.

Definition getEnabledSlots (slots : list TimeSlot) (date : string) (city : option Z)
           (rules : list SlotDisableRule) : list TimeSlot :=
  map slot
      (List.filter (fun result => negb (disabled result))
                   (getAvailableSlots slots date city rules)).

Definition isSlotAvailable (slotId : Z) (slots : list TimeSlot) (date : string)
           (city : option Z) (rules : list SlotDisableRule) : bool :=
  match find (fun s => id s =? slotId) slots with
  | None => false
  | Some slot =>
      let result := checkSlotAvailability slot date city rules in
      negb (disabled result)
  end.

End SlotAvailability.

Example getAvailableSlots_ex :
  let slots :=
    [ {| SlotAvailability.id := 1; SlotAvailability.startTime := "09:00";
         SlotAvailability.endTime := "12:00"; SlotAvailability.isActive := true;
         SlotAvailability.label := Some "9AM - 12PM" |};
      {| SlotAvailability.id := 2; SlotAvailability.startTime := "12:00";
         SlotAvailability.endTime := "15:00"; SlotAvailability.isActive := false;
         SlotAvailability.label := Some "12PM - 3PM" |} ] in
  let rules :=
    [ {| SlotAvailability.timeSlotId := 1; SlotAvailability.cityId := None;
         SlotAvailability.startDate := "2024-12-25"; SlotAvailability.endDate := None;
         SlotAvailability.reason := None |} ] in
  map (fun r => (SlotAvailability.disabled r, SlotAvailability.resultReason r))
      (SlotAvailability.getAvailableSlots slots "2024-12-25" None rules)
  = [ (true, Some "Disabled on 2024-12-25"); (true, Some "Slot is inactive") ].
Proof. vm_compute. reflexivity. Qed.

(** In [isDateInRange] a rule without an end date has no upper bound: it
    covers every date from its start date on. *)
Example isDateInRange_ex :
  (SlotAvailability.isDateInRange "2024-12-24" "2024-12-25" None,
   SlotAvailability.isDateInRange "2024-12-25" "2024-12-25" None,
   SlotAvailability.isDateInRange "2024-12-26" "2024-12-25" None,
   SlotAvailability.isDateInRange "2024-12-26" "2024-12-25" (Some "2024-12-26"),
   SlotAvailability.isDateInRange "2024-12-27" "2024-12-25" (Some "2024-12-26"))
  = (false, true, true, true, false).
Proof. vm_compute. reflexivity. Qed.

(** *** Collections as they may arrive *)

(** A parameter declared as an array: an array, or any other value
    ([undefined] and [null] included), which [!x || !Array.isArray(x)]
    detects. *)
Inductive Collection (A : Type) : Type :=
| AnArray (items : list A)
| NotAnArray (v : JsValue).
Arguments AnArray {A} items.
Arguments NotAnArray {A} v.

(** [getAvailableSlots] applied to whatever collections arrive. *)
Definition getAvailableSlotsValue (slots : Collection SlotAvailability.TimeSlot)
           (date : string) (city : option Z)
           (rules : Collection SlotAvailability.SlotDisableRule)
  : list SlotAvailability.SlotAvailabilityResult :=
  match slots with
  | NotAnArray _ => []
  | AnArray slots =>
      match rules with
      | NotAnArray _ =>
          map (fun slot => SlotAvailability.checkSlotAvailability slot date city []) slots
      | AnArray rules =>
          map (fun slot => SlotAvailability.checkSlotAvailability slot date city rules) slots
      end
  end.

(** ** checkoutEligibilityValidator.ts *)

Module CheckoutValidator.

Definition FULL_NAME_REQUIRED : string := "Full name is required".
Definition PHONE_NUMBER_REQUIRED : string := "Phone number is required".
Definition PHONE_NUMBER_INVALID : string := "Phone number format is invalid".
Definition DELIVERY_ADDRESS_REQUIRED : string := "Delivery address is required".
Definition DELIVERY_DATE_REQUIRED : string := "Delivery date is required".
Definition DELIVERY_DATE_INVALID : string := "Delivery date format is invalid".
Definition DELIVERY_TIME_SLOT_REQUIRED : string := "Delivery time slot is required".

Record CheckoutFields : Type :=
  { fullName : string;
    phoneNumber : string;
    deliveryAddress : string;
    deliveryDate : string;
    deliveryTimeSlot : Z }.

Record CheckoutValidationResult : Type :=
  { isValid : bool; errors : list string }.

(** [errors.push(...items)] *)
Definition push (errors items : list string) : list string := (errors ++ items)%list.

Definition isNonEmpty (value : string) : bool :=
  (0 <? String.length (trim value))%nat.

Definition validateFullName (fullName : string) : list string :=
  let errors := [] in
  if negb (isNonEmpty fullName) then push errors [FULL_NAME_REQUIRED] else errors.

Definition validatePhoneNumber (phoneNumber : string) : list string :=
  let errors := [] in
  if negb (isNonEmpty phoneNumber) then push errors [PHONE_NUMBER_REQUIRED]
  else
    let digitsOnly := digitsOnly phoneNumber in
    if (String.length digitsOnly <? 7)%nat then push errors [PHONE_NUMBER_INVALID]
    else errors.

Definition validateDeliveryAddress (deliveryAddress : string) : list string :=
  let errors := [] in
  if negb (isNonEmpty deliveryAddress) then push errors [DELIVERY_ADDRESS_REQUIRED]
  else errors.

(** [/^\d{4}-\d{2}-\d{2}$/.test(s)] *)
Definition datePattern (s : string) : bool :=
  match DateAvailability.isoPattern s with
  | Some _ => true
  | None => false
  end.

(** The round trip through [new Date(year, month - 1, day)]; a missing or
    [NaN] component makes every comparison false. *)
Definition isValidDate (parts : list (option Z)) : bool :=
  match parts with
  | Some year :: Some month :: Some day :: _ =>
      let date := newDate year (month - 1) day in
      (getFullYear date =? year) && (getMonth date =? month - 1) && (getDate date =? day)
  | _ => false
  end.

Definition validateDeliveryDate (deliveryDate : string) : list string :=
  let errors := [] in
  if negb (isNonEmpty deliveryDate) then push errors [DELIVERY_DATE_REQUIRED]
  else if negb (datePattern (trim deliveryDate)) then push errors [DELIVERY_DATE_INVALID]
  else
    if negb (isValidDate (map Number (split "-" deliveryDate)))
    then push errors [DELIVERY_DATE_INVALID]
    else errors.

Definition validateDeliveryTimeSlot (deliveryTimeSlot : Z) : list string :=
  let errors := [] in
  if (deliveryTimeSlot =? 0) || (deliveryTimeSlot <=? 0)
  then push errors [DELIVERY_TIME_SLOT_REQUIRED]
  else errors.

Definition validateCheckout (fields : CheckoutFields) : CheckoutValidationResult :=
  let errors := [] in
  let errors := push errors (validateFullName (fullName fields)) in
  let errors := push errors (validatePhoneNumber (phoneNumber fields)) in
  let errors := push errors (validateDeliveryAddress (deliveryAddress fields)) in
  let errors := push errors (validateDeliveryDate (deliveryDate fields)) in
  let errors := push errors (validateDeliveryTimeSlot (deliveryTimeSlot fields)) in
  {| isValid := (List.length errors =? 0)%nat; errors := errors |}.

Definition isCheckoutEligible (fields : CheckoutFields) : bool :=
  isValid (validateCheckout fields).

Definition createEmptyCheckoutFields : CheckoutFields :=
  {| fullName := ""; phoneNumber := ""; deliveryAddress := "";
     deliveryDate := ""; deliveryTimeSlot := 0 |}.

(** [None] is [null]. *)
Definition getFirstCheckoutError (fields : CheckoutFields) : option string :=
  match errors (validateCheckout fields) with
  | first :: _ => Some first
  | [] => None
  end.

End CheckoutValidator.

(** ** The slot service with single-day rules

    The variant of the slot service that [dateAvailabilityService.ts]
    carries after the date functions: ids are strings, a slot is switched
    off by [isGloballyDisabled], and a rule names one date. *)

Module DatedSlotAvailability.

Record TimeSlot : Type :=
  { id : string; label : string; startTime : string; endTime : string;
    isGloballyDisabled : bool }.

Record SlotDisableRule : Type :=
  { slotId : string; date : option string; cityId : option string }.

Record SlotAvailabilityResult : Type :=
  { slot : TimeSlot; disabled : bool; resultReason : option string }.

Record Check : Type := { checkDisabled : bool; checkReason : option string }.

(** [a === b] for an optional string and a string. *)
Definition strictEqStr (a : option string) (b : string) : bool :=
  match a with
  | Some x => String.eqb x b
  | None => false
  end.

Definition checkGlobalDisable (slot : TimeSlot) : Check :=
  if isGloballyDisabled slot
  then {| checkDisabled := true; checkReason := Some "Globally disabled" |}
  else {| checkDisabled := false; checkReason := None |}.

Definition checkDateSpecificDisable (slotId' : string) (date' : string)
           (rules : list SlotDisableRule) : Check :=
  let dateRule :=
    find (fun rule =>
            String.eqb (slotId rule) slotId'
            && strictEqStr (date rule) date'
            && negb (truthyStr (cityId rule)))
         rules in
  match dateRule with
  | Some _ => {| checkDisabled := true; checkReason := Some ("Disabled on " ++ date') |}
  | None => {| checkDisabled := false; checkReason := None |}
  end.

Definition checkCityDateDisable (slotId' : string) (date' : string) (city : string)
           (rules : list SlotDisableRule) : Check :=
  let cityDateRule :=
    find (fun rule =>
            String.eqb (slotId rule) slotId'
            && strictEqStr (date rule) date'
            && strictEqStr (cityId rule) city)
         rules in
  match cityDateRule with
  | Some _ =>
      {| checkDisabled := true;
         checkReason := Some ("Disabled for this city on " ++ date') |}
  | None => {| checkDisabled := false; checkReason := None |}
  end.

Definition checkSlotAvailability (slot : TimeSlot) (date' : string) (city : option string)
           (rules : list SlotDisableRule) : SlotAvailabilityResult :=
  let globalCheck := checkGlobalDisable slot in
  if checkDisabled globalCheck
  then {| slot := slot; disabled := true; resultReason := checkReason globalCheck |}
  else
    let dateCheck := checkDateSpecificDisable (id slot) date' rules in
    if checkDisabled dateCheck
    then {| slot := slot; disabled := true; resultReason := checkReason dateCheck |}
    else
      let available := {| slot := slot; disabled := false; resultReason := None |} in
      match city with
      | Some c =>
          if truthyStr city then
            let cityDateCheck := checkCityDateDisable (id slot) date' c rules in
            if checkDisabled cityDateCheck
            then {| slot := slot; disabled := true;
                    resultReason := checkReason cityDateCheck |}
            else available
          else available
      | None => available
      end.

End DatedSlotAvailability.

(** ** deliveryConfigService.ts *)

Module DeliveryConfig.

Import DateAvailability.


(** The columns of a [DisableTimeSlotRules] row that the slot service
    reads. *)
Record DisableTimeSlotRulesRow : Type :=
  { slotRuleTimeSlotId : Z;
    slotRuleCityId : option Z;
    slotRuleStartDate : Date;
    slotRuleEndDate : option Date;
    slotRuleReason : option string }.


(** What [loadSlotDisableRules] makes of the rows its query returned. *)
Definition loadSlotDisableRules (rules : list DisableTimeSlotRulesRow)
  : list SlotAvailability.SlotDisableRule :=
  map (fun rule =>
         {| SlotAvailability.timeSlotId := slotRuleTimeSlotId rule;
            SlotAvailability.cityId := slotRuleCityId rule;
            SlotAvailability.startDate := formatDateToString (slotRuleStartDate rule);
            SlotAvailability.endDate :=
              match slotRuleEndDate rule with
              | Some e => Some (formatDateToString e)
              | None => None
              end;
            SlotAvailability.reason := slotRuleReason rule |})
      rules.

End DeliveryConfig.

(** * Properties *)

(** ** Calendar *)

Module CalendarFacts.

Lemma DayFromYear_next y : DayFromYear (y + 1) = DayFromYear y + DaysInYear y.
Proof.
  unfold DayFromYear, DaysInYear.
  destruct (Z.eqb_spec (y mod 4) 0), (Z.eqb_spec (y mod 100) 0),
    (Z.eqb_spec (y mod 400) 0); cbn [negb]; divmod.
Qed.

Lemma DaysInYear_cases y : DaysInYear y = 365 \/ DaysInYear y = 366.
Proof.
  unfold DaysInYear.
  destruct (y mod 4 =? 0), (y mod 100 =? 0), (y mod 400 =? 0); cbn; auto.
Qed.

Lemma YearFromDay_bounds d :
  DayFromYear (YearFromDay d) <= d < DayFromYear (YearFromDay d + 1).
Proof.
  unfold YearFromDay.
  set (y := 1970 + 400 * d / 146097).
  assert (Hlo : DayFromYear (y - 1) <= d) by (unfold DayFromYear, y; divmod).
  assert (Hhi : d < DayFromYear (y + 2)) by (unfold DayFromYear, y; divmod).
  destruct (Z.leb_spec (DayFromYear (y + 1)) d).
  - replace (y + 1 + 1) with (y + 2) by lia. lia.
  - destruct (Z.ltb_spec d (DayFromYear y)).
    + replace (y - 1 + 1) with y by lia. lia.
    + lia.
Qed.

Lemma DayWithinYear_range d :
  0 <= DayWithinYear d < 365 + InLeapYear d.
Proof.
  pose proof (YearFromDay_bounds d) as H.
  rewrite DayFromYear_next in H.
  unfold DayWithinYear, InLeapYear.
  destruct (DaysInYear_cases (YearFromDay d)) as [E | E]; rewrite E in *; cbn; lia.
Qed.

Lemma InLeapYear_cases d : InLeapYear d = 0 \/ InLeapYear d = 1.
Proof. unfold InLeapYear. destruct (_ =? _); auto. Qed.

Lemma DateFromDay_range d : 1 <= DateFromDay d <= 31.
Proof.
  pose proof (DayWithinYear_range d) as Hw.
  destruct (InLeapYear_cases d) as [El | El];
    unfold DateFromDay, MonthFromDay; rewrite El in *;
    repeat match goal with |- context [?a <? ?b] => destruct (Z.ltb_spec a b) end; lia.
Qed.

Lemma Day_MakeDate day time :
  0 <= time < msPerDay -> Day (MakeDate day time) = day.
Proof. unfold Day, MakeDate, msPerDay. intros. divmod. Qed.

Lemma TimeWithinDay_MakeDate day time :
  0 <= time < msPerDay -> TimeWithinDay (MakeDate day time) = time.
Proof. unfold TimeWithinDay, MakeDate, msPerDay. intros. divmod. Qed.

Lemma TimeWithinDay_range t : 0 <= TimeWithinDay t < msPerDay.
Proof. unfold TimeWithinDay, msPerDay. divmod. Qed.

Lemma monthStart_nonneg k l : 0 <= l -> 0 <= monthStart k l.
Proof.
  intros Hl. unfold monthStart. destruct k as [| p | p]; [lia | | lia].
  do 4 (try destruct p as [p | p |]; try lia).
Qed.

Lemma DayFromYear_mono y1 y2 : y1 <= y2 -> DayFromYear y1 <= DayFromYear y2.
Proof. unfold DayFromYear. intros. divmod. Qed.

(** [YearFromDay d] is the only year whose days include [d]. *)
Lemma YearFromDay_unique y d :
  DayFromYear y <= d < DayFromYear (y + 1) -> YearFromDay d = y.
Proof.
  intros H. pose proof (YearFromDay_bounds d) as B.
  destruct (Z.lt_trichotomy (YearFromDay d) y) as [Hlt | [Heq | Hgt]]; [| assumption |].
  - pose proof (DayFromYear_mono (YearFromDay d + 1) y). lia.
  - pose proof (DayFromYear_mono (y + 1) (YearFromDay d)). lia.
Qed.

(** A day of the month does not exceed the length of its month. *)
Lemma DateFromDay_DaysInMonth d :
  DateFromDay d <= DaysInMonth (YearFromDay d) (MonthFromDay d + 1).
Proof.
  pose proof (DayWithinYear_range d) as Hw.
  unfold DateFromDay, DaysInMonth, MonthFromDay, InLeapYear in *.
  destruct (DaysInYear (YearFromDay d) =? 366) eqn:E; rewrite ?E in Hw;
    repeat match goal with |- context [?a <? ?b] => destruct (Z.ltb_spec a b) end;
    match goal with
    | |- context [match ?k + 1 with _ => _ end] =>
        let v := eval vm_compute in (k + 1) in change (k + 1) with v
    end;
    cbn; lia.
Qed.

(** The fields of the day built from a year, a month and a day of that
    month are the ones it was built from. *)
Lemma MakeDay_roundtrip y m d :
  1 <= m <= 12 -> 1 <= d <= DaysInMonth y m ->
  YearFromDay (MakeDay y (m - 1) d) = y
  /\ MonthFromDay (MakeDay y (m - 1) d) = m - 1
  /\ DateFromDay (MakeDay y (m - 1) d) = d.
Proof.
  intros Hm Hd.
  set (l := if DaysInYear y =? 366 then 1 else 0).
  assert (Hday : MakeDay y (m - 1) d = DayFromYear y + monthStart (m - 1) l + d - 1).
  { unfold MakeDay. rewrite Z.div_small, Z.mod_small, Z.add_0_r by lia. reflexivity. }
  assert (Hin : 0 <= monthStart (m - 1) l + d - 1 < DaysInYear y
                /\ (monthStart (m - 1) l + d - 1 <? 31) = (m - 1 <? 1)
                /\ forall k, 1 <= k <= 10 ->
                             (monthStart (m - 1) l + d - 1 <? monthStart (k + 1) l)
                             = (m - 1 <? k + 1)).
  { assert (m = 1 \/ m = 2 \/ m = 3 \/ m = 4 \/ m = 5 \/ m = 6 \/ m = 7 \/ m = 8
            \/ m = 9 \/ m = 10 \/ m = 11 \/ m = 12 \/ False) as Hcases by lia.
    assert (forall k, 1 <= k <= 10 ->
                      k = 1 \/ k = 2 \/ k = 3 \/ k = 4 \/ k = 5 \/ k = 6 \/ k = 7 \/ k = 8
                      \/ k = 9 \/ k = 10 \/ False) as Hk by lia.
    unfold DaysInMonth in Hd. subst l.
    destruct (DaysInYear_cases y) as [E | E]; rewrite E in *; cbn [Z.eqb Pos.eqb] in *;
      repeat (destruct Hcases as [Hc | Hcases];
              [subst m; cbn in Hd;
               split; [vm_compute (monthStart _ _); lia |];
               split; [vm_compute (monthStart _ _); compare_lt |];
               intros k Hr; specialize (Hk k Hr);
               repeat (destruct Hk as [Hc | Hk];
                       [subst k;
                        repeat match goal with
                               | |- context [monthStart ?a ?b] =>
                                   let v := eval vm_compute in (monthStart a b) in
                                   change (monthStart a b) with v
                               end;
                        compare_lt |]);
               destruct Hk |]);
      destruct Hcases. }
  destruct Hin as (Hrange & H0 & Hk).
  assert (Hyear : YearFromDay (MakeDay y (m - 1) d) = y).
  { apply YearFromDay_unique. rewrite Hday, DayFromYear_next. lia. }
  split; [exact Hyear |].
  assert (Hl : InLeapYear (MakeDay y (m - 1) d) = l).
  { unfold InLeapYear. rewrite Hyear. reflexivity. }
  assert (Hw : DayWithinYear (MakeDay y (m - 1) d) = monthStart (m - 1) l + d - 1).
  { unfold DayWithinYear. rewrite Hyear, Hday. lia. }
  assert (Hmonth : MonthFromDay (MakeDay y (m - 1) d) = m - 1).
  { unfold MonthFromDay. rewrite Hw, Hl, H0.
    change (59 + l) with (monthStart (1 + 1) l). change (90 + l) with (monthStart (2 + 1) l).
    change (120 + l) with (monthStart (3 + 1) l). change (151 + l) with (monthStart (4 + 1) l).
    change (181 + l) with (monthStart (5 + 1) l). change (212 + l) with (monthStart (6 + 1) l).
    change (243 + l) with (monthStart (7 + 1) l). change (273 + l) with (monthStart (8 + 1) l).
    change (304 + l) with (monthStart (9 + 1) l). change (334 + l) with (monthStart (10 + 1) l).
    rewrite !Hk by lia.
    repeat match goal with |- context [?a <? ?b] => destruct (Z.ltb_spec a b); try lia end. }
  split; [exact Hmonth |].
  pose proof (monthStart_DateFromDay (MakeDay y (m - 1) d)) as Hs.
  rewrite Hmonth, Hl, Hw in Hs. lia.
Qed.

End CalendarFacts.

Import CalendarFacts.

(** ** Strings *)

Section StringFacts.

Lemma append_nil_r (s : string) : s ++ "" = s.
Proof. induction s as [| c s IH]; cbn; congruence. Qed.

Lemma append_assoc (a b c : string) : (a ++ b) ++ c = a ++ (b ++ c).
Proof. induction a as [| x a IH]; cbn; congruence. Qed.

Lemma length_append (a b : string) :
  String.length (a ++ b) = (String.length a + String.length b)%nat.
Proof. induction a as [| x a IH]; cbn; congruence. Qed.

Lemma append_inv_prefix (a b c d : string) :
  a ++ b = c ++ d -> String.length a = String.length c -> a = c /\ b = d.
Proof.
  revert c. induction a as [| x a IH]; intros [| y c] H L; cbn in *; try discriminate.
  - auto.
  - injection H as -> H. injection L as L. destruct (IH c H L) as [-> ->]. auto.
Qed.


Lemma atEnd_true (s : string) : atEnd s = true <-> s = "".
Proof. destruct s; cbn; split; congruence. Qed.

Lemma truthy_true (s : string) : truthy s = true <-> s <> "".
Proof. destruct s; cbn; split; congruence. Qed.

Lemma literal_asIs_spec (p s r : string) : literal asIs p s = Some r <-> s = p ++ r.
Proof.
  revert s. induction p as [| pc p IH]; intros s; cbn.
  - split; congruence.
  - destruct s as [| c s]; [split; discriminate |].
    cbv [asIs]. destruct (Ascii.eqb_spec pc c) as [-> | N].
    + rewrite IH. split; congruence.
    + split; [discriminate | congruence].
Qed.

Lemma takeDigits_spec (n : nat) (s d t : string) :
  takeDigits n s = Some (d, t)
  <-> s = d ++ t /\ String.length d = n /\ allDigits d = true.
Proof.
  revert s d t. induction n as [| n IH]; intros s d t; cbn.
  - split.
    + intros [= <- <-]. auto.
    + intros (-> & L & _). destruct d; [reflexivity | discriminate].
  - destruct s as [| c s].
    + split; [discriminate |]. intros (E & L & _). destruct d; discriminate.
    + destruct (isDigit c) eqn:Ec.
      * destruct (takeDigits n s) as [[d' t'] |] eqn:Et.
        -- apply IH in Et as (-> & L' & A'). split.
           ++ intros [= <- <-]. cbn. rewrite Ec, A', L'. auto.
           ++ intros (E & L & A). destruct d as [| x d]; [discriminate |].
              cbn in E, L, A. injection E as <- E. injection L as L.
              apply andb_true_iff in A as [_ A].
              destruct (append_inv_prefix _ _ _ _ E) as [-> ->]; [lia | reflexivity].
        -- split; [discriminate |]. intros (E & L & A).
           destruct d as [| x d]; [discriminate |].
           cbn in E, L, A. injection E as <- E. injection L as L.
           apply andb_true_iff in A as [_ A].
           assert (takeDigits n s = Some (d, t)) as Et' by (apply IH; auto).
           congruence.
      * split; [discriminate |]. intros (E & L & A).
        destruct d as [| x d]; [discriminate |].
        cbn in E, A. injection E as <- E. rewrite Ec in A. discriminate.
Qed.

(** What follows the longest run of digits does not start with one. *)
Definition noLeadingDigit (s : string) : bool :=
  match s with
  | String c _ => negb (isDigit c)
  | EmptyString => true
  end.

Lemma spanDigits_spec (s d t : string) :
  spanDigits s = (d, t)
  <-> s = d ++ t /\ allDigits d = true /\ noLeadingDigit t = true.
Proof.
  revert d t. induction s as [| c s IH]; intros d t; cbn.
  - split.
    + intros [= <- <-]. auto.
    + intros (E & _ & _). destruct d; [| discriminate]. cbn in E. subst. reflexivity.
  - destruct (isDigit c) eqn:Ec.
    + destruct (spanDigits s) as [d' t'] eqn:Es.
      destruct (IH d' t') as [(-> & A' & N') _]; [reflexivity |]. split.
      * intros [= <- <-]. cbn. rewrite Ec, A'. auto.
      * intros (E & A & N). destruct d as [| x d].
        -- cbn in E. subst t. cbn in N. rewrite Ec in N. discriminate.
        -- cbn in E, A. injection E as <- E. apply andb_true_iff in A as [_ A].
           assert ((d', t') = (d, t)) as Es' by (apply IH; auto).
           congruence.
    + split.
      * intros [= <- <-]. cbn. rewrite Ec. auto.
      * intros (E & A & N). destruct d as [| x d].
        -- cbn in E. congruence.
        -- cbn in E, A. injection E as <- E. rewrite Ec in A. discriminate.
Qed.

Lemma allDigits_append (a b : string) :
  allDigits (a ++ b) = allDigits a && allDigits b.
Proof. induction a as [| c a IH]; cbn; [reflexivity |]. rewrite IH, andb_assoc. reflexivity. Qed.

Lemma digit_not_space (c : ascii) : isDigit c = true -> isWhiteSpace c = false.
Proof. unfold isDigit, isWhiteSpace. cbn zeta. lia. Qed.

Lemma decimalAcc_nonneg (s : string) (acc : Z) :
  allDigits s = true -> 0 <= acc -> 0 <= decimalAcc acc s.
Proof.
  revert acc. induction s as [| c s IH]; intros acc A H; cbn in *; [assumption |].
  apply andb_true_iff in A as [Ac A]. apply IH; [assumption |].
  unfold isDigit, digitValue in *. lia.
Qed.

Lemma decimalValue_nonneg (s : string) : allDigits s = true -> 0 <= decimalValue s.
Proof. intros A. apply decimalAcc_nonneg; [assumption | lia]. Qed.

(** [parseInt] of a non-empty run of digits is its decimal value. *)
Lemma parseInt_digits (d : string) :
  d <> "" -> allDigits d = true -> parseInt d = Some (decimalValue d).
Proof.
  intros Hne A. unfold parseInt.
  destruct d as [| c d]; [congruence |].
  pose proof A as A'. cbn in A'. apply andb_true_iff in A' as [Ac _].
  cbn [trimStart]. rewrite (digit_not_space c Ac).
  assert (spanDigits (String c d) = (String c d, "")) as Es.
  { apply spanDigits_spec. rewrite append_nil_r. auto. }
  assert (c <> "-"%char /\ c <> "+"%char) as [N1 N2].
  { split; intros ->; discriminate. }
  destruct (Ascii.eqb_spec c "-") as [? | _]; [contradiction |].
  destruct (Ascii.eqb_spec c "+") as [? | _]; [contradiction |].
  assert (forall (A : Type) (x y z : A),
             match c with
             | "-"%char => x | "+"%char => y | _ => z end = z) as Hm.
  { intros B x y z.
    destruct c as [[] [] [] [] [] [] [] []]; try reflexivity; congruence. }
  rewrite Hm. rewrite Es. cbn [fst]. f_equal. lia.
Qed.

End StringFacts.

(** ** Lists *)

Section ListFacts.

Context {A : Type}.

(** [x] is the first element of [l] that satisfies [P]. *)
Definition FirstSuch (P : A -> Prop) (l : list A) (x : A) : Prop :=
  exists before after,
    l = (before ++ x :: after)%list /\ P x /\ forall y, In y before -> ~ P y.

Lemma find_first (p : A -> bool) (l : list A) (x : A) :
  find p l = Some x <-> FirstSuch (fun y => p y = true) l x.
Proof.
  induction l as [| a l IH]; cbn.
  - split; [discriminate |]. intros ([| ? ?] & after & E & _); discriminate.
  - destruct (p a) eqn:Ea.
    + split.
      * intros [= <-]. exists [], l. cbn. tauto.
      * intros ([| b before] & after & E & Px & N).
        -- cbn in E. congruence.
        -- cbn in E. injection E as <- E. exfalso. apply (N a); cbn; auto.
    + rewrite IH. split.
      * intros (before & after & -> & Px & N). exists (a :: before), after.
        cbn. repeat split; auto. intros y [<- | Hy]; [congruence | auto].
      * intros ([| b before] & after & E & Px & N).
        -- cbn in E. congruence.
        -- cbn in E. injection E as <- ->. exists before, after.
           repeat split; auto. intros y Hy. apply N. cbn. auto.
Qed.

Lemma find_absent (p : A -> bool) (l : list A) :
  find p l = None <-> forall y, In y l -> p y = false.
Proof.
  induction l as [| a l IH]; cbn.
  - tauto.
  - destruct (p a) eqn:Ea.
    + split; [discriminate |]. intros H. specialize (H a (or_introl eq_refl)). congruence.
    + rewrite IH. split; [intros H y [<- | Hy]; auto | auto].
Qed.

(** [r] is the largest of [floor] and the numbers in [xs]. *)
Definition LargestOf (floor : Z) (xs : list Z) (r : Z) : Prop :=
  floor <= r /\ (forall x, In x xs -> x <= r) /\ (r = floor \/ In r xs).

Lemma fold_left_max (f : A -> Z) (l : list A) (a : Z) :
  LargestOf a (map f l) (fold_left (fun m x => Z.max m (f x)) l a).
Proof.
  revert a. induction l as [| x l IH]; intros a; cbn.
  - unfold LargestOf. cbn. intuition lia.
  - destruct (IH (Z.max a (f x))) as (H1 & H2 & H3). unfold LargestOf. cbn.
    repeat split.
    + lia.
    + intros y [<- | Hy]; [lia | auto].
    + destruct H3 as [H3 | H3]; [| auto].
      destruct (Z.max_spec a (f x)) as [[_ E] | [_ E]]; [right; left | left]; lia.
Qed.

End ListFacts.

(** ** Cart delay *)

Module CartDelayFacts.

Import CartDelay.

(** The tags a cart line contributes: none when the field is missing or
    is not an array. *)
Definition tagList (product : CartProduct) : list string :=
  match tags product with
  | TagArray ts => ts
  | TagsMissing | TagsNotArray _ => []
  end.

Lemma validDelay_nonneg v : 0 <= validDelay v.
Proof. destruct v as [v |]; cbn; [destruct (Z.ltb_spec v 0) |]; lia. Qed.

Lemma parseDelayFromTag_nonneg tag : 0 <= parseDelayFromTag tag.
Proof.
  unfold parseDelayFromTag. destruct (DELAY_TAG_PATTERN _); [| lia].
  apply validDelay_nonneg.
Qed.

Lemma getProductDelay_largest product :
  LargestOf 0 (map parseDelayFromTag (tagList product)) (getProductDelay product).
Proof.
  unfold getProductDelay, tagList. destruct (tags product).
  - apply fold_left_max.
  - unfold LargestOf. cbn. intuition lia.
  - unfold LargestOf. cbn. intuition lia.
Qed.

Lemma calculateCartDelay_largest products :
  LargestOf 0 (map getProductDelay products) (calculateCartDelay products).
Proof.
  unfold calculateCartDelay. destruct products as [| p ps].
  - unfold LargestOf. cbn. intuition lia.
  - cbn [List.length Nat.eqb]. apply fold_left_max.
Qed.

(** C7. The cart delay is the largest of the per-product delays, each of
    which is the largest delay among the product's tags; an empty cart,
    a product without tags and a [tags] field that is not an array count
    as 0; the result is never negative; a cart with tags [delay] and
    [delay-3] gives 3, their maximum and not their sum. *)
Theorem calculateCartDelay_is_maximum :
  forall products : list CartProduct,
    LargestOf 0 (map getProductDelay products) (calculateCartDelay products)
    /\ (forall product,
           LargestOf 0 (map parseDelayFromTag (tagList product)) (getProductDelay product))
    /\ (forall v, getProductDelay {| tags := TagsNotArray v |} = 0)
    /\ getProductDelay {| tags := TagsMissing |} = 0
    /\ getProductDelay {| tags := TagArray [] |} = 0
    /\ calculateCartDelay [] = 0
    /\ 0 <= calculateCartDelay products
    /\ calculateCartDelay
         [ {| tags := TagArray ["delay"] |}; {| tags := TagArray ["delay-3"] |} ] = 3.
Proof.
  intros products.
  pose proof (calculateCartDelay_largest products) as H.
  split; [exact H |].
  split; [exact getProductDelay_largest |].
  split; [reflexivity |].
  split; [reflexivity |].
  split; [reflexivity |].
  split; [reflexivity |].
  split; [exact (proj1 H) | reflexivity].
Qed.

End CartDelayFacts.

(** ** Slot availability *)

Module SlotAvailabilityFacts.

Import SlotAvailability.







Lemma FirstSuch_iff {A} (P Q : A -> Prop) (l : list A) (x : A) :
  (forall y, In y l -> (P y <-> Q y)) -> FirstSuch P l x -> FirstSuch Q l x.
Proof.
  intros H (before & after & -> & Px & N). exists before, after.
  repeat split.
  - apply H; [apply in_or_app; cbn; auto | assumption].
  - intros y Hy Qy. apply (N y Hy). apply H; [apply in_or_app; auto | assumption].
Qed.














(** C10. [isSlotAvailable] is false when no slot of the collection has
    the id; otherwise it tells whether [checkSlotAvailability], applied
    to the first slot with that id, reports the slot as not disabled. *)
Theorem isSlotAvailable_first_match :
  forall (slotId : Z) (slots : list TimeSlot) (date : string) (city : option Z)
         (rules : list SlotDisableRule),
    ((forall s, In s slots -> id s <> slotId) ->
     isSlotAvailable slotId slots date city rules = false)
    /\ (forall s,
           FirstSuch (fun x => id x = slotId) slots s ->
           (isSlotAvailable slotId slots date city rules = true
            <-> disabled (checkSlotAvailability s date city rules) = false)).
Proof.
  intros slotId slots date city rules. unfold isSlotAvailable. split.
  - intros Hnone.
    assert (find (fun s => id s =? slotId) slots = None) as ->; [| reflexivity].
    apply find_absent. intros y Hy. apply Z.eqb_neq. auto.
  - intros s Hs.
    assert (find (fun s => id s =? slotId) slots = Some s) as ->.
    { apply find_first. apply (FirstSuch_iff (fun x => id x = slotId)); [| assumption].
      intros y _. symmetry. apply Z.eqb_eq. }
    cbn zeta. apply negb_true_iff.
Qed.

End SlotAvailabilityFacts.

(** ** Checkout validation *)

Module CheckoutValidatorFacts.

Import CheckoutValidator.

(** C4. [validateCheckout] returns the errors of the five field
    validators, concatenated in the order name, phone, address, date,
    slot, and [isValid] holds exactly when that list is empty; the
    fields with an empty name, phone ["123"], address ["123 Main St"],
    an empty date and slot 0 give the four errors for name, phone format,
    date and slot, in that order. *)
Theorem validateCheckout_concatenates :
  forall fields : CheckoutFields,
    errors (validateCheckout fields)
    = (validateFullName (fullName fields)
         ++ validatePhoneNumber (phoneNumber fields)
         ++ validateDeliveryAddress (deliveryAddress fields)
         ++ validateDeliveryDate (deliveryDate fields)
         ++ validateDeliveryTimeSlot (deliveryTimeSlot fields))%list
    /\ (isValid (validateCheckout fields) = true <-> errors (validateCheckout fields) = [])
    /\ validateCheckout
         {| fullName := ""; phoneNumber := "123"; deliveryAddress := "123 Main St";
            deliveryDate := ""; deliveryTimeSlot := 0 |}
       = {| isValid := false;
            errors := [ "Full name is required";
                        "Phone number format is invalid";
                        "Delivery date is required";
                        "Delivery time slot is required" ] |}.
Proof.
  intros fields. split; [| split].
  - unfold validateCheckout, push. cbn [errors].
    rewrite app_nil_l, <- !app_assoc. reflexivity.
  - unfold validateCheckout. cbn [isValid errors].
    rewrite Nat.eqb_eq. apply length_zero_iff_nil.
  - reflexivity.
Qed.

End CheckoutValidatorFacts.

(** ** City cutoff *)

Module CityCutoffFacts.

Import DateAvailability CityCutoff.

(** The text [cutoff], trimmed, reads as a time of day: one or two digits
    for the hour [h] from 0 to 23, a colon, two digits for the minute [m]
    from 0 to 59. *)
Definition ReadsAsTimeOfDay (cutoff : string) (h m : Z) : Prop :=
  exists hs ms,
    trim cutoff = hs ++ ":" ++ ms
    /\ allDigits hs = true /\ (String.length hs = 1 \/ String.length hs = 2)%nat
    /\ allDigits ms = true /\ String.length ms = 2%nat
    /\ h = decimalValue hs /\ m = decimalValue ms
    /\ 0 <= h <= 23 /\ 0 <= m <= 59.

Lemma minutesPart_spec r m :
  minutesPart r = Some m
  <-> r = ":" ++ m /\ allDigits m = true /\ String.length m = 2%nat.
Proof.
  unfold minutesPart. split.
  - intros H.
    apply bind_Some in H as (r1 & E1 & H).
    apply bind_Some in H as ([m' r2] & E2 & H). cbn in H.
    destruct (atEnd r2) eqn:E3; [| discriminate]. injection H as <-.
    apply literal_asIs_spec in E1. apply takeDigits_spec in E2 as (-> & L & A).
    apply atEnd_true in E3. subst. rewrite append_nil_r. auto.
  - intros (-> & A & L).
    assert (literal asIs ":" (":" ++ m) = Some m) as -> by (apply literal_asIs_spec; reflexivity).
    cbn [mbind option_bind].
    assert (takeDigits 2 m = Some (m, "")) as ->.
    { apply takeDigits_spec. rewrite append_nil_r. auto. }
    reflexivity.
Qed.

Lemma timeAttempt_spec n s h m :
  timeAttempt n s = Some (h, m)
  <-> s = h ++ ":" ++ m
      /\ String.length h = n /\ allDigits h = true
      /\ allDigits m = true /\ String.length m = 2%nat.
Proof.
  unfold timeAttempt. split.
  - intros H.
    apply bind_Some in H as ([h' r] & E1 & H). cbn in H.
    apply bind_Some in H as (m' & E2 & H).
    injection H as <- <-.
    apply takeDigits_spec in E1 as (-> & L & A).
    apply minutesPart_spec in E2 as (-> & A' & L'). auto.
  - intros (-> & L & A & A' & L').
    assert (takeDigits n (h ++ ":" ++ m) = Some (h, ":" ++ m)) as ->
        by (apply takeDigits_spec; auto).
    cbn [mbind option_bind].
    assert (minutesPart (":" ++ m) = Some m) as -> by (apply minutesPart_spec; auto).
    reflexivity.
Qed.

Lemma timePattern_spec s h m :
  timePattern s = Some (h, m)
  <-> s = h ++ ":" ++ m
      /\ allDigits h = true /\ (String.length h = 1 \/ String.length h = 2)%nat
      /\ allDigits m = true /\ String.length m = 2%nat.
Proof.
  unfold timePattern. split.
  - intros H. destruct (timeAttempt 2 s) as [[h' m'] |] eqn:E2.
    + injection H as <- <-. apply timeAttempt_spec in E2. intuition.
    + apply timeAttempt_spec in H. intuition.
  - intros (-> & A & [L | L] & A' & L').
    + destruct (timeAttempt 2 (h ++ ":" ++ m)) as [[h2 m2] |] eqn:E2.
      * exfalso. apply timeAttempt_spec in E2 as (E & L2 & A2 & _).
        destruct h as [| a [| ? ?]]; try discriminate.
        destruct h2 as [| b [| c [| ? ?]]]; try discriminate.
        cbn in E. injection E as _ <- _. cbn in A2.
        rewrite andb_false_r in A2. discriminate.
      * apply timeAttempt_spec. auto.
    + assert (timeAttempt 2 (h ++ ":" ++ m) = Some (h, m)) as ->
          by (apply timeAttempt_spec; auto).
      reflexivity.
Qed.

Lemma parseTime_spec cutoff h m :
  parseTime cutoff = Some {| hours := h; minutes := m |} <-> ReadsAsTimeOfDay cutoff h m.
Proof.
  unfold parseTime, ReadsAsTimeOfDay. split.
  - intros H. destruct (truthy cutoff); cbn [negb] in H; [| discriminate].
    destruct (timePattern (trim cutoff)) as [[hs ms] |] eqn:Ep; [| discriminate].
    apply timePattern_spec in Ep as (E & A & L & A' & L').
    rewrite (parseInt_digits hs), (parseInt_digits ms) in H; auto.
    2: { intros ->. discriminate. }
    2: { intros ->. destruct L; discriminate. }
    pose proof (decimalValue_nonneg hs A). pose proof (decimalValue_nonneg ms A').
    destruct (_ || _) eqn:Er in H; [discriminate |]. injection H as <- <-.
    exists hs, ms. repeat split; auto; lia.
  - intros (hs & ms & E & A & L & A' & L' & -> & -> & Hh & Hm).
    destruct cutoff as [| c0 cutoff'] eqn:Ec.
    { cbn in E. destruct hs; cbn in E; discriminate. }
    cbn [truthy atEnd negb]. rewrite <- Ec in *.
    assert (timePattern (trim cutoff) = Some (hs, ms)) as ->
        by (apply timePattern_spec; auto).
    rewrite (parseInt_digits hs), (parseInt_digits ms); auto.
    2: { intros ->. discriminate. }
    2: { intros ->. destruct L; discriminate. }
    assert ((decimalValue hs <? 0) || (decimalValue hs >? 23)
            || (decimalValue ms <? 0) || (decimalValue ms >? 59) = false) as -> by lia.
    reflexivity.
Qed.

(** C8. [isBeforeCutoff] is true exactly when the cutoff reads as a time
    of day and the local hour and minute of [now] come strictly before
    it; a cutoff that does not read as a time of day gives false, for
    every string and every instant. *)
Theorem isBeforeCutoff_strictly_before :
  forall (cutoff : string) (now : Date),
    (isBeforeCutoff cutoff now = true
     <-> exists h m,
          ReadsAsTimeOfDay cutoff h m
          /\ (getHours now < h \/ (getHours now = h /\ getMinutes now < m)))
    /\ ((forall h m, ~ ReadsAsTimeOfDay cutoff h m) -> isBeforeCutoff cutoff now = false)
    /\ (forall h m, parseTime cutoff = Some {| hours := h; minutes := m |}
                    <-> ReadsAsTimeOfDay cutoff h m).
Proof.
  intros cutoff now.
  assert (Hiff : isBeforeCutoff cutoff now = true
                 <-> exists h m,
                   ReadsAsTimeOfDay cutoff h m
                   /\ (getHours now < h \/ (getHours now = h /\ getMinutes now < m))).
  { unfold isBeforeCutoff. split.
    - destruct (parseTime cutoff) as [[h m] |] eqn:Ep; [| discriminate].
      apply parseTime_spec in Ep. cbn [hours minutes]. intros H.
      exists h, m. split; [assumption |].
      destruct (Z.ltb_spec (getHours now) h); [auto |].
      destruct (Z.eqb_spec (getHours now) h); cbn in H; [| discriminate].
      destruct (Z.ltb_spec (getMinutes now) m); [auto | discriminate].
    - intros (h & m & R & Hlt). apply parseTime_spec in R. rewrite R.
      cbn [hours minutes].
      destruct Hlt as [Hlt | [-> Hlt]].
      + apply Z.ltb_lt in Hlt. rewrite Hlt. reflexivity.
      + rewrite Z.ltb_irrefl, Z.eqb_refl. apply Z.ltb_lt in Hlt. rewrite Hlt. reflexivity. }
  split; [exact Hiff |]. split; [| intros h m; apply parseTime_spec].
  intros Hnone. apply not_true_is_false. intros Ht.
  apply Hiff in Ht as (h & m & R & _). exact (Hnone h m R).
Qed.

Example isBeforeCutoff_ex :
  let now := localDateTime 2024 12 24 10 0 in
  (isBeforeCutoff "14:00" now, isBeforeCutoff "09:00" now, isBeforeCutoff "10:00" now,
   isBeforeCutoff "10:01" now, isBeforeCutoff "soon" now)
  = (true, false, false, true, false).
Proof. vm_compute. reflexivity. Qed.








End CityCutoffFacts.

(** ** Tag parsing *)

Module TagFacts.

Import CartDelay.

Ltac each_char c := destruct c as [[] [] [] [] [] [] [] []].

Lemma foldChar_idem c : foldChar (foldChar c) = foldChar c.
Proof. each_char c; reflexivity. Qed.

Lemma foldChar_digit c : isDigit c = true -> foldChar c = c.
Proof. each_char c; intros H; try reflexivity; discriminate H. Qed.

Lemma foldChar_to_digit c x : isDigit x = true -> foldChar c = x -> c = x.
Proof. each_char c; intros A <-; try discriminate A; reflexivity. Qed.

Lemma isDigit_lowerChar c : isDigit (lowerChar c) = isDigit c.
Proof. each_char c; reflexivity. Qed.

Lemma lowerChar_digit c : isDigit c = true -> lowerChar c = c.
Proof. each_char c; intros H; try reflexivity; discriminate H. Qed.

(** Lower-casing a character does not change which ASCII character it
    folds to. *)
Lemma foldChar_lowerChar c x :
  (code x <? 128) = true -> foldChar (lowerChar c) = x <-> foldChar c = x.
Proof.
  intros Hx. each_char c; try tauto; split; intros <-; discriminate Hx.
Qed.

Fixpoint allAscii (s : string) : bool :=
  match s with
  | EmptyString => true
  | String c r => (code c <? 128) && allAscii r
  end.

Lemma allAscii_append a b : allAscii (a ++ b) = allAscii a && allAscii b.
Proof. induction a as [| c a IH]; cbn; [reflexivity |]. rewrite IH, andb_assoc. reflexivity. Qed.

Lemma allDigits_allAscii d : allDigits d = true -> allAscii d = true.
Proof.
  induction d as [| c d IH]; cbn; [reflexivity |].
  intros [Hc Hd]%andb_true_iff. rewrite (IH Hd), andb_true_r.
  unfold isDigit in Hc. lia.
Qed.

Lemma mapChars_append f a b : mapChars f (a ++ b) = mapChars f a ++ mapChars f b.
Proof. induction a as [| c a IH]; cbn; congruence. Qed.

Lemma mapChars_append_inv f s p q :
  mapChars f s = p ++ q ->
  exists a b, s = a ++ b /\ mapChars f a = p /\ mapChars f b = q.
Proof.
  revert s. induction p as [| pc p IH]; intros s H.
  - exists "", s. auto.
  - destruct s as [| c s]; [discriminate |]. cbn in H. injection H as Hc H.
    destruct (IH s H) as (a & b & -> & Ha & Hb).
    exists (String c a), b. cbn. repeat split; congruence.
Qed.

Lemma foldCase_digits d : allDigits d = true -> foldCase d = d.
Proof.
  induction d as [| c d IH]; cbn; [reflexivity |].
  intros [Hc Hd]%andb_true_iff. unfold foldCase in IH.
  rewrite (foldChar_digit c Hc), (IH Hd). reflexivity.
Qed.

Lemma foldCase_toLowerCase s x :
  allAscii x = true -> foldCase (toLowerCase s) = x <-> foldCase s = x.
Proof.
  revert x. induction s as [| c s IH]; intros x Hx; cbn; [tauto |].
  destruct x as [| xc x]; [split; discriminate |].
  cbn in Hx. apply andb_true_iff in Hx as [Hc Hx].
  pose proof (foldChar_lowerChar c xc Hc) as Hcc.
  specialize (IH x Hx). unfold foldCase, toLowerCase in IH.
  split; intros [= E1 E2]; f_equal; tauto.
Qed.

(** A literal in lower case matched without regard to case: the input
    starts with some spelling of it. *)
Lemma literal_foldChar_spec p s r :
  foldCase p = p ->
  (literal foldChar p s = Some r <-> exists a, s = a ++ r /\ foldCase a = p).
Proof.
  revert s. induction p as [| pc p IH]; intros s Hp.
  - cbn. split.
    + intros [= ->]. exists "". auto.
    + intros ([| ? ?] & -> & E); [reflexivity | discriminate].
  - cbn in Hp. injection Hp as Hpc Hp. cbn [literal]. rewrite Hpc.
    destruct s as [| c s].
    + split; [discriminate |]. intros ([| ? ?] & E & F); discriminate.
    + destruct (Ascii.eqb_spec pc (foldChar c)) as [-> | N].
      * rewrite (IH s Hp). split.
        -- intros (a & -> & <-). exists (String c a). auto.
        -- intros ([| c' a] & E & F); [discriminate |].
           cbn in E, F.
           injection E as <- ->. injection F as F. eauto.
      * split; [discriminate |].
        intros ([| c' a] & E & F); [discriminate |].
        cbn in E, F. injection E as <- ->. injection F as F _. congruence.
Qed.

(** The shapes [^(cake-)?delay(-\d+)?$] allows, once letter case is
    folded away, with the digits of the suffix when there is one. *)
Definition MatchesDelayPattern (t : string) (suffix : option string) : Prop :=
  match suffix with
  | None => t = "delay" \/ t = "cake-delay"
  | Some d =>
      d <> "" /\ allDigits d = true /\ (t = "delay-" ++ d \/ t = "cake-delay-" ++ d)
  end.

Lemma delaySuffix_spec r g :
  delaySuffix r = Some g
  <-> match g with
      | None => r = ""
      | Some d => d <> "" /\ allDigits d = true /\ r = "-" ++ d
      end.
Proof.
  unfold delaySuffix.
  destruct (literal foldChar "-" r) as [r1 |] eqn:El; cbn [mbind option_bind].
  - apply literal_foldChar_spec in El as (a & -> & Ha); [| reflexivity].
    assert (a = "-") as ->.
    { destruct a as [| c [| ? ?]]; try discriminate.
      cbn in Ha. injection Ha as Ha. f_equal.
      revert Ha. each_char c; intros Ha; try discriminate Ha; reflexivity. }
    destruct (spanDigits r1) as [d t] eqn:Es.
    apply spanDigits_spec in Es as (-> & Ad & Nt).
    destruct (truthy d && atEnd t) eqn:Eg.
    + apply andb_true_iff in Eg as [Hd Ht].
      apply truthy_true in Hd. apply atEnd_true in Ht. subst t.
      rewrite append_nil_r. destruct g as [d' |].
      * split; [intros [= <-]; auto | intros (_ & _ & E); cbn in E; congruence].
      * split; discriminate.
    + cbn. destruct g as [d' |]; (split; [discriminate |]).
      * intros (Hne & Ad' & E). cbn in E. injection E as E.
        assert (spanDigits (d ++ t) = (d', "")) as Es'.
        { apply spanDigits_spec. rewrite append_nil_r. auto. }
        assert (spanDigits (d ++ t) = (d, t)) as Es'' by (apply spanDigits_spec; auto).
        rewrite Es' in Es''. injection Es'' as <- <-.
        apply truthy_true in Hne. rewrite Hne in Eg. discriminate.
      * discriminate.
  - destruct (atEnd r) eqn:Ee.
    + apply atEnd_true in Ee. subst r. destruct g; split; try discriminate; auto.
      intros (_ & _ & E). discriminate.
    + destruct g as [d |]; (split; [discriminate |]).
      * intros (_ & _ & ->). cbn in El. discriminate.
      * intros ->. discriminate.
Qed.

Lemma delayBody_spec s g :
  delayBody s = Some g
  <-> match g with
      | None => foldCase s = "delay"
      | Some d => d <> "" /\ allDigits d = true /\ foldCase s = "delay-" ++ d
      end.
Proof.
  unfold delayBody. split.
  - intros H. apply bind_Some in H as (r & El & H).
    apply literal_foldChar_spec in El as (a & -> & Ha); [| reflexivity].
    apply delaySuffix_spec in H. unfold foldCase in *. rewrite mapChars_append, Ha.
    destruct g as [d |].
    + destruct H as (Hne & Ad & ->). repeat split; auto.
      rewrite mapChars_append. cbn. fold (foldCase d). rewrite (foldCase_digits d Ad).
      reflexivity.
    + subst r. reflexivity.
  - intros H.
    assert (exists a r, s = a ++ r /\ foldCase a = "delay"
                        /\ delaySuffix r = Some g) as (a & r & -> & Ha & Hr).
    { destruct g as [d |].
      - destruct H as (Hne & Ad & E).
        change ("delay-" ++ d) with ("delay" ++ "-" ++ d) in E.
        apply mapChars_append_inv in E as (a & b & -> & Ha & Hb).
        apply mapChars_append_inv in Hb as (b1 & b2 & -> & Hb1 & Hb2).
        exists a, (b1 ++ b2). repeat split; auto.
        apply delaySuffix_spec.
        assert (b1 = "-") as ->.
        { destruct b1 as [| c [| ? ?]]; try discriminate.
          cbn in Hb1. injection Hb1 as Hb1. f_equal.
          revert Hb1. each_char c; intros Hb1; try discriminate Hb1; reflexivity. }
        assert (b2 = d) as ->.
        { clear - Hb2 Ad. revert b2 Hb2. induction d as [| x d IH]; intros [| y b2] E;
            try discriminate; [reflexivity |].
          cbn in E, Ad. injection E as Ex E. apply andb_true_iff in Ad as [Ax Ad].
          f_equal; [| auto]. exact (foldChar_to_digit y x Ax Ex). }
        auto.
      - exists s, "". rewrite append_nil_r. repeat split; auto. }
    assert (literal foldChar "delay" (a ++ r) = Some r) as ->.
    { apply literal_foldChar_spec; [reflexivity | eauto]. }
    exact Hr.
Qed.

Lemma DELAY_TAG_PATTERN_spec s g :
  DELAY_TAG_PATTERN s = Some g <-> MatchesDelayPattern (foldCase s) g.
Proof.
  unfold DELAY_TAG_PATTERN, MatchesDelayPattern.
  destruct (literal foldChar "cake-" s) as [r |] eqn:El; cbn [mbind option_bind].
  - apply literal_foldChar_spec in El as (a & -> & Ha); [| reflexivity].
    assert (Hs : foldCase (a ++ r) = "cake-" ++ foldCase r).
    { unfold foldCase in *. rewrite mapChars_append, Ha. reflexivity. }
    assert (Hnb : delayBody (a ++ r) = None).
    { destruct (delayBody (a ++ r)) as [g' |] eqn:Eb; [| reflexivity].
      apply delayBody_spec in Eb. rewrite Hs in Eb.
      destruct g' as [d |]; [destruct Eb as (_ & _ & Eb) |]; discriminate. }
    rewrite Hs.
    destruct (delayBody r) as [g' |] eqn:Eb.
    + apply delayBody_spec in Eb. split.
      * intros [= <-]. destruct g' as [d |].
        -- destruct Eb as (Hne & Ad & ->). auto.
        -- rewrite Eb. auto.
      * intros H. f_equal. destruct g as [d |], g' as [d' |].
        -- destruct H as (_ & _ & [H | H]); [discriminate |].
           destruct Eb as (_ & _ & Eb). rewrite Eb in H. cbn in H. congruence.
        -- destruct H as (_ & _ & [H | H]); [discriminate |].
           rewrite Eb in H. cbn in H. injection H as H.
           destruct d; [congruence | discriminate].
        -- destruct Eb as (Hne & _ & Eb). destruct H as [H | H]; [discriminate |].
           rewrite Eb in H. cbn in H. injection H as H.
           destruct d'; [congruence | discriminate].
        -- reflexivity.
    + rewrite Hnb. split; [discriminate |]. intros H. exfalso.
      assert (delayBody r = Some g) as Hb; [| congruence].
      apply delayBody_spec. destruct g as [d |].
      * destruct H as (Hne & Ad & [H | H]); [discriminate |].
        cbn in H. injection H as H. auto.
      * destruct H as [H | H]; [discriminate |]. cbn in H. injection H as H. auto.
  - rewrite delayBody_spec. destruct g as [d |].
    + split; [intros (? & ? & ?); auto |]. intros (Hne & Ad & [H | H]); [auto |].
      exfalso.
      change ("cake-delay-" ++ d) with ("cake-" ++ "delay-" ++ d) in H.
      apply mapChars_append_inv in H as (a & b & -> & Ha & _).
      assert (literal foldChar "cake-" (a ++ b) = Some b) as El'.
      { apply literal_foldChar_spec; [reflexivity | eauto]. }
      congruence.
    + split; [auto |]. intros [H | H]; [auto |]. exfalso.
      change "cake-delay" with ("cake-" ++ "delay") in H.
      apply mapChars_append_inv in H as (a & b & -> & Ha & _).
      assert (literal foldChar "cake-" (a ++ b) = Some b) as El'.
      { apply literal_foldChar_spec; [reflexivity | eauto]. }
      congruence.
Qed.

Lemma MatchesDelayPattern_toLowerCase s g :
  MatchesDelayPattern (foldCase (toLowerCase s)) g <-> MatchesDelayPattern (foldCase s) g.
Proof.
  unfold MatchesDelayPattern. destruct g as [d |].
  - assert (Hasc : allDigits d = true ->
                   forall p, allAscii p = true -> allAscii (p ++ d) = true).
    { intros Ad p Hp. rewrite allAscii_append, Hp. apply allDigits_allAscii, Ad. }
    split; intros (Hne & Ad & H); (split; [assumption |]); (split; [assumption |]);
      pose proof (foldCase_toLowerCase s _ (Hasc Ad "delay-" eq_refl)) as H1;
      pose proof (foldCase_toLowerCase s _ (Hasc Ad "cake-delay-" eq_refl)) as H2;
      tauto.
  - rewrite !foldCase_toLowerCase by reflexivity. tauto.
Qed.


Lemma parseDelayFromTag_no_match tag :
  (forall suffix, ~ MatchesDelayPattern (foldCase (trim tag)) suffix) ->
  parseDelayFromTag tag = 0.
Proof.
  intros Hnone. unfold parseDelayFromTag. cbn zeta.
  destruct (DELAY_TAG_PATTERN (toLowerCase (trim tag))) as [g |] eqn:Ep; [| reflexivity].
  apply DELAY_TAG_PATTERN_spec in Ep.
  apply (proj1 (MatchesDelayPattern_toLowerCase _ _)) in Ep.
  destruct (Hnone g Ep).
Qed.


(** C9, as the claim states it, fails: for an absent tag the call does
    not return 0, it throws. *)
Lemma parseDelayFromTag_absent_tag_throws :
  parseDelayFromTagValue VUndefined = Throws TypeError
  /\ parseDelayFromTagValue VNull = Throws TypeError
  /\ ~ (forall v : JsValue,
          exists n, parseDelayFromTagValue v = Returns n
                    /\ ((forall s, v <> VString s) -> n = 0)).
Proof.
  split; [reflexivity |]. split; [reflexivity |].
  intros H. destruct (H VUndefined) as (n & E & _). discriminate E.
Qed.

(** C9, amended. On every string [parseDelayFromTag] returns, and what it
    returns is an integer that is not negative, 0 for a tag that does not
    match the pattern; a value that is not a string (an absent tag
    included) makes the call throw a TypeError. *)
Theorem parseDelayFromTag_total_on_strings :
  (forall s : string,
      exists n,
        parseDelayFromTagValue (VString s) = Returns n
        /\ n = parseDelayFromTag s
        /\ 0 <= n
        /\ ((forall suffix, ~ MatchesDelayPattern (foldCase (trim s)) suffix) -> n = 0))
  /\ (forall v : JsValue,
         (forall s, v <> VString s) -> parseDelayFromTagValue v = Throws TypeError).
Proof.
  split.
  - intros s. exists (parseDelayFromTag s). repeat split.
    + apply CartDelayFacts.parseDelayFromTag_nonneg.
    + apply parseDelayFromTag_no_match.
  - intros [| | n | s] H; try reflexivity. destruct (H s eq_refl).
Qed.

End TagFacts.

(** ** Date normalization *)

Module NormalizeFacts.

Import DateAvailability.

(** A run of exactly [n] digits. *)
Definition Digits (n : nat) (s : string) : Prop :=
  String.length s = n /\ allDigits s = true.

(** [t] is [y-m-d] or [d/m/y] for a four-digit [y] and two-digit [m], [d]. *)
Definition DateText (t y m d : string) : Prop :=
  Digits 4 y /\ Digits 2 m /\ Digits 2 d
  /\ (t = y ++ "-" ++ m ++ "-" ++ d \/ t = d ++ "/" ++ m ++ "/" ++ y).

(** The numbers name a day of the calendar: month and day are in range
    and the Date built from them shows the same year, month and day. *)
Definition RealDate (y m d : Z) : Prop :=
  1 <= m <= 12 /\ 1 <= d <= 31
  /\ getFullYear (newDate y (m - 1) d) = y
  /\ getMonth (newDate y (m - 1) d) = m - 1
  /\ getDate (newDate y (m - 1) d) = d.

Lemma isValidDateComponents_spec y m d :
  isValidDateComponents y m d = true <-> RealDate y m d.
Proof.
  unfold isValidDateComponents, RealDate.
  destruct (Z.ltb_spec m 1); [cbn; split; [discriminate | lia] |].
  destruct (Z.gtb_spec m 12); [cbn; split; [discriminate | lia] |].
  destruct (Z.ltb_spec d 1); [cbn; split; [discriminate | lia] |].
  destruct (Z.gtb_spec d 31); [cbn; split; [discriminate | lia] |].
  cbn [orb]. rewrite !andb_true_iff, !Z.eqb_eq. intuition lia.
Qed.

(** The round trip succeeds exactly on the days of the calendar, in the
    years the Date constructor takes as they are. *)
Lemma RealDate_calendar y m d :
  RealDate y m d
  <-> ~ (0 <= y <= 99) /\ 1 <= m <= 12 /\ 1 <= d <= DaysInMonth y m.
Proof.
  unfold RealDate, newDate, getFullYear, getMonth, getDate. cbn [timeValue].
  rewrite Day_MakeDate by (unfold msPerDay; lia).
  set (yr := if (0 <=? y) && (y <=? 99) then 1900 + y else y).
  split.
  - intros (Hm & Hd & Ey & Em & Ed).
    pose proof (YearFromDay_bounds (MakeDay yr (m - 1) d)) as B. rewrite Ey in B.
    assert (DayFromYear yr <= MakeDay yr (m - 1) d) as Hlow.
    { unfold MakeDay. rewrite Z.div_small, Z.mod_small, Z.add_0_r by lia.
      pose proof (monthStart_nonneg (m - 1) (if DaysInYear yr =? 366 then 1 else 0)).
      destruct (DaysInYear yr =? 366); lia. }
    assert (yr <= y) as Hle.
    { destruct (Z.le_gt_cases yr y) as [? | Hgt]; [assumption |].
      pose proof (DayFromYear_mono (y + 1) yr). lia. }
    assert (~ (0 <= y <= 99)) as Hy.
    { subst yr. destruct (Z.leb_spec 0 y), (Z.leb_spec y 99); cbn in Hle; lia. }
    split; [exact Hy |]. split; [exact Hm |]. split; [lia |].
    pose proof (DateFromDay_DaysInMonth (MakeDay yr (m - 1) d)) as Hdim.
    rewrite Ey, Em, Ed in Hdim. replace (m - 1 + 1) with m in Hdim by lia. exact Hdim.
  - intros (Hy & Hm & Hd).
    assert (yr = y) as ->.
    { subst yr. destruct (Z.leb_spec 0 y), (Z.leb_spec y 99); cbn; lia. }
    pose proof (DateFromDay_range (MakeDay y (m - 1) d)) as Hr.
    destruct (MakeDay_roundtrip y m d Hm Hd) as (Ey & Em & Ed).
    rewrite Ed in Hr. auto 10.
Qed.

Lemma three_groups_spec (sep : string) (n1 n2 n3 : nat) s a b c :
  ('(a, r1) ← takeDigits n1 s;
   r2 ← literal asIs sep r1;
   '(b, r3) ← takeDigits n2 r2;
   r4 ← literal asIs sep r3;
   '(c, r5) ← takeDigits n3 r4;
   if atEnd r5 then Some (a, b, c) else None) = Some (a, b, c)
  <-> s = a ++ sep ++ b ++ sep ++ c /\ Digits n1 a /\ Digits n2 b /\ Digits n3 c.
Proof.
  unfold Digits. split.
  - intros H.
    apply bind_Some in H as ([a' r1] & E1 & H). cbn in H.
    apply bind_Some in H as (r2 & E2 & H).
    apply bind_Some in H as ([b' r3] & E3 & H). cbn in H.
    apply bind_Some in H as (r4 & E4 & H).
    apply bind_Some in H as ([c' r5] & E5 & H). cbn in H.
    destruct (atEnd r5) eqn:E6; [| discriminate]. injection H as <- <- <-.
    apply takeDigits_spec in E1 as (-> & L1 & A1).
    apply literal_asIs_spec in E2 as ->.
    apply takeDigits_spec in E3 as (-> & L3 & A3).
    apply literal_asIs_spec in E4 as ->.
    apply takeDigits_spec in E5 as (-> & L5 & A5).
    apply atEnd_true in E6 as ->. rewrite append_nil_r. auto.
  - intros (-> & (L1 & A1) & (L2 & A2) & (L3 & A3)).
    assert (takeDigits n1 (a ++ sep ++ b ++ sep ++ c) = Some (a, sep ++ b ++ sep ++ c))
      as -> by (apply takeDigits_spec; auto).
    cbn [mbind option_bind].
    assert (literal asIs sep (sep ++ b ++ sep ++ c) = Some (b ++ sep ++ c))
      as -> by (apply literal_asIs_spec; auto).
    cbn [mbind option_bind].
    assert (takeDigits n2 (b ++ sep ++ c) = Some (b, sep ++ c))
      as -> by (apply takeDigits_spec; auto).
    cbn [mbind option_bind].
    assert (literal asIs sep (sep ++ c) = Some c)
      as -> by (apply literal_asIs_spec; auto).
    cbn [mbind option_bind].
    assert (takeDigits n3 c = Some (c, ""))
      as -> by (apply takeDigits_spec; rewrite append_nil_r; auto).
    reflexivity.
Qed.

Lemma isoPattern_spec s y m d :
  isoPattern s = Some (y, m, d)
  <-> s = y ++ "-" ++ m ++ "-" ++ d /\ Digits 4 y /\ Digits 2 m /\ Digits 2 d.
Proof. apply (three_groups_spec "-" 4 2 2). Qed.

Lemma euroPattern_spec s d m y :
  euroPattern s = Some (d, m, y)
  <-> s = d ++ "/" ++ m ++ "/" ++ y /\ Digits 2 d /\ Digits 2 m /\ Digits 4 y.
Proof. apply (three_groups_spec "/" 2 2 4). Qed.

Lemma Digits_nonempty n s : Digits (S n) s -> s <> "".
Proof. intros [L _] ->. discriminate. Qed.

Lemma Digits_parseInt n s : Digits (S n) s -> parseInt s = Some (decimalValue s).
Proof. intros H. apply parseInt_digits; [exact (Digits_nonempty n s H) | apply H]. Qed.

Lemma padStart_two c s : String.length s = 2%nat -> padStart 2 c s = s.
Proof. intros L. unfold padStart. rewrite L. reflexivity. Qed.

(** The two formats exclude each other: the third character is a digit
    in one and a slash in the other. *)
Lemma iso_not_euro y m d d' m' y' :
  Digits 4 y -> Digits 2 d' ->
  y ++ "-" ++ m ++ "-" ++ d <> d' ++ "/" ++ m' ++ "/" ++ y'.
Proof.
  intros [Ly Ay] [Ld _] E.
  destruct y as [| y1 [| y2 [| y3 y]]]; try discriminate.
  destruct d' as [| d1 [| d2 [| ? ?]]]; try discriminate.
  cbn in E, Ay. injection E as _ _ E _. subst y3.
  rewrite !andb_true_iff in Ay. destruct Ay as (_ & _ & Ay & _). discriminate.
Qed.

Lemma trim_empty_string : trim "" = "".
Proof. reflexivity. Qed.

Lemma normalizeDate_Some s r :
  normalizeDate s = Some r
  <-> exists y m d,
      DateText (trim s) y m d
      /\ RealDate (decimalValue y) (decimalValue m) (decimalValue d)
      /\ r = y ++ "-" ++ m ++ "-" ++ d.
Proof.
  unfold normalizeDate, DateText. split.
  - destruct (truthy s); cbn [negb]; [| discriminate].
    destruct (isoPattern (trim s)) as [[[y m] d] |] eqn:Ei.
    + apply isoPattern_spec in Ei as (E & Hy & Hm & Hd).
      rewrite (Digits_parseInt _ _ Hy), (Digits_parseInt _ _ Hm), (Digits_parseInt _ _ Hd).
      cbn [validComponents].
      destruct (isValidDateComponents _ _ _) eqn:Ev; [| discriminate].
      apply isValidDateComponents_spec in Ev. intros [= <-].
      exists y, m, d. auto 10.
    + destruct (euroPattern (trim s)) as [[[d m] y] |] eqn:Ee; [| discriminate].
      apply euroPattern_spec in Ee as (E & Hd & Hm & Hy).
      rewrite (Digits_parseInt _ _ Hy), (Digits_parseInt _ _ Hm), (Digits_parseInt _ _ Hd).
      cbn [validComponents].
      destruct (isValidDateComponents _ _ _) eqn:Ev; [| discriminate].
      apply isValidDateComponents_spec in Ev.
      rewrite (padStart_two _ m (proj1 Hm)), (padStart_two _ d (proj1 Hd)).
      intros [= <-]. exists y, m, d. auto 10.
  - intros (y & m & d & (Hy & Hm & Hd & Ht) & Hreal & ->).
    assert (truthy s = true) as ->.
    { apply truthy_true. intros ->. rewrite trim_empty_string in Ht.
      destruct Ht as [Ht | Ht]; symmetry in Ht.
      - destruct y; [destruct Hy; discriminate | discriminate].
      - destruct d; [destruct Hd; discriminate | discriminate]. }
    cbn [negb]. apply isValidDateComponents_spec in Hreal.
    destruct Ht as [Ht | Ht].
    + assert (isoPattern (trim s) = Some (y, m, d)) as -> by (apply isoPattern_spec; auto).
      rewrite (Digits_parseInt _ _ Hy), (Digits_parseInt _ _ Hm), (Digits_parseInt _ _ Hd).
      cbn [validComponents]. rewrite Hreal. congruence.
    + destruct (isoPattern (trim s)) as [[[y' m'] d'] |] eqn:Ei.
      { apply isoPattern_spec in Ei as (E & Hy' & _). exfalso.
        rewrite Ht in E. symmetry in E. exact (iso_not_euro _ _ _ _ _ _ Hy' Hd E). }
      assert (euroPattern (trim s) = Some (d, m, y)) as -> by (apply euroPattern_spec; auto).
      rewrite (Digits_parseInt _ _ Hy), (Digits_parseInt _ _ Hm), (Digits_parseInt _ _ Hd).
      cbn [validComponents]. rewrite Hreal.
      rewrite (padStart_two _ m (proj1 Hm)), (padStart_two _ d (proj1 Hd)). reflexivity.
Qed.

(** C5. [normalizeDate] returns the canonical [YYYY-MM-DD] text when the
    trimmed input is [YYYY-MM-DD] or [DD/MM/YYYY] and names a day of the
    calendar (month 1 to 12, day 1 to 31, and the Date built from the
    numbers shows the same year, month and day); otherwise it returns
    null.  That round trip holds exactly when the day exists in its month,
    the years 0 to 99 apart, which the Date constructor reads as 1900 to
    1999.  ["25/12/2024"] gives ["2024-12-25"]; ["31/02/2024"] and
    ["2024-13-01"] give null. *)
Theorem normalizeDate_canonical_or_null :
  forall s : string,
    (forall r,
        normalizeDate s = Some r
        <-> exists y m d,
            DateText (trim s) y m d
            /\ RealDate (decimalValue y) (decimalValue m) (decimalValue d)
            /\ r = y ++ "-" ++ m ++ "-" ++ d)
    /\ (normalizeDate s = None
        <-> ~ exists y m d,
              DateText (trim s) y m d
              /\ RealDate (decimalValue y) (decimalValue m) (decimalValue d))
    /\ (forall y m d,
          RealDate y m d
          <-> ~ (0 <= y <= 99) /\ 1 <= m <= 12 /\ 1 <= d <= DaysInMonth y m)
    /\ normalizeDate "25/12/2024" = Some "2024-12-25"
    /\ normalizeDate "31/02/2024" = None
    /\ normalizeDate "2024-13-01" = None.
Proof.
  intros s. split; [intros r; apply normalizeDate_Some |].
  split; [| split; [exact RealDate_calendar | repeat split; vm_compute; reflexivity]].
  split.
  - intros Hn (y & m & d & Ht & Hr).
    assert (normalizeDate s = Some (y ++ "-" ++ m ++ "-" ++ d)) as E
        by (apply normalizeDate_Some; eauto 10).
    congruence.
  - intros Hn. destruct (normalizeDate s) as [r |] eqn:E; [| reflexivity].
    exfalso. apply Hn. apply normalizeDate_Some in E as (y & m & d & Ht & Hr & _).
    eauto.
Qed.

End NormalizeFacts.

(** ** Available dates *)

Module AvailableDatesFacts.

Import DateAvailability NormalizeFacts.

(** The canonical text of the calendar day with number [day]. *)
Definition canonical (day : Z) : string := formatDateToString (mkDate (MakeDate day 0)).

Lemma Day_midnight day : Day (MakeDate day 0) = day.
Proof. apply Day_MakeDate. unfold msPerDay. lia. Qed.

Lemma formatDateToString_canonical d :
  formatDateToString d = canonical (Day (timeValue d)).
Proof.
  unfold canonical, formatDateToString, getFullYear, getMonth, getDate.
  cbn [timeValue]. rewrite Day_midnight. reflexivity.
Qed.

(** A field of the date in two digits. *)
Definition pad2 (n : Z) : string := padStart 2 "0" (ofNumber n).

Lemma canonical_fields day :
  canonical day
  = ofNumber (YearFromDay day) ++ "-" ++ pad2 (MonthFromDay day + 1)
             ++ "-" ++ pad2 (DateFromDay day).
Proof.
  unfold canonical, formatDateToString, getFullYear, getMonth, getDate, pad2.
  cbn [timeValue]. rewrite Day_midnight. reflexivity.
Qed.

Lemma pad2_table :
  forallb (fun k => (String.length (pad2 (Z.of_nat k)) =? 2)%nat
                    && (decimalValue (pad2 (Z.of_nat k)) =? Z.of_nat k))
          (seq 0 100) = true.
Proof. vm_compute. reflexivity. Qed.

Lemma pad2_facts n :
  0 <= n <= 99 -> String.length (pad2 n) = 2%nat /\ decimalValue (pad2 n) = n.
Proof.
  intros Hn. pose proof pad2_table as H. rewrite forallb_forall in H.
  specialize (H (Z.to_nat n)). rewrite Z2Nat.id in H by lia.
  assert (In (Z.to_nat n) (seq 0 100)) as Hin by (apply in_seq; lia).
  apply H in Hin. apply andb_true_iff in Hin as [H1 H2].
  apply Nat.eqb_eq in H1. apply Z.eqb_eq in H2. auto.
Qed.



Lemma canonical_truthy day : truthy (canonical day) = true.
Proof.
  rewrite canonical_fields. apply truthy_true. intros E.
  apply (f_equal String.length) in E. rewrite !length_append in E. cbn in E. lia.
Qed.

(** The [n] consecutive days from [a] on. *)
Fixpoint daysFrom (a : Z) (n : nat) : list Z :=
  match n with
  | O => []
  | S n' => a :: daysFrom (a + 1) n'
  end.




Lemma Day_next d :
  Day (timeValue (setDate d (getDate d + 1))) = Day (timeValue d) + 1.
Proof. rewrite setDate_shift. unfold Day, msPerDay. Z.div_mod_to_equations; lia. Qed.

(** The walk over the window keeps, in order, the days whose canonical
    text is not in the set. *)
Lemma walkDays_spec n (disabledSet : gset string) cur acc :
  walkDays n disabledSet cur acc
  = (acc ++ map canonical
          (List.filter (fun day => negb (bool_decide (canonical day ∈ disabledSet)))
                       (daysFrom (Day (timeValue cur)) n)))%list.
Proof.
  revert cur acc. induction n as [| n IH]; intros cur acc; cbn [walkDays daysFrom].
  - cbn. rewrite app_nil_r. reflexivity.
  - rewrite IH, Day_next, formatDateToString_canonical. cbn [List.filter].
    destruct (bool_decide _); cbn [negb map]; [reflexivity |].
    rewrite <- app_assoc. reflexivity.
Qed.

(** *** Date texts and the days they name *)

Lemma digit_not_dash c : isDigit c = true -> Ascii.eqb c "-" = false.
Proof.
  intros H. destruct (Ascii.eqb_spec c "-") as [-> | _]; [discriminate | reflexivity].
Qed.

Lemma split_digits_more a r :
  allDigits a = true -> split "-" (a ++ "-" ++ r) = a :: split "-" r.
Proof.
  induction a as [| c a IH]; intros A; cbn in A |- *; [reflexivity |].
  apply andb_true_iff in A as [Ac A]. cbn [String.append split].
  rewrite (digit_not_dash c Ac). cbn [String.append] in IH. rewrite (IH A). reflexivity.
Qed.

Lemma split_digits_last a : allDigits a = true -> split "-" a = [a].
Proof.
  induction a as [| c a IH]; intros A; cbn in A |- *; [reflexivity |].
  apply andb_true_iff in A as [Ac A]. rewrite (digit_not_dash c Ac), (IH A). reflexivity.
Qed.

Lemma trimEnd_append_keep a b : b <> "" -> trimEnd b = b -> trimEnd (a ++ b) = a ++ b.
Proof.
  intros Hb Eb. induction a as [| c a IH]; cbn [String.append trimEnd]; [assumption |].
  rewrite IH. destruct (a ++ b) eqn:E; [| reflexivity].
  destruct a; cbn in E; [contradiction | discriminate].
Qed.

Lemma trimEnd_digits a : allDigits a = true -> trimEnd a = a.
Proof.
  induction a as [| c a IH]; intros A; cbn in A |- *; [reflexivity |].
  apply andb_true_iff in A as [Ac A]. rewrite (IH A).
  destruct a; [rewrite (digit_not_space c Ac) |]; reflexivity.
Qed.

Lemma trimStart_digit_first c r : isDigit c = true -> trimStart (String c r) = String c r.
Proof. intros A. cbn. rewrite (digit_not_space c A). reflexivity. Qed.

Lemma trim_digits n a : Digits (S n) a -> trim a = a.
Proof.
  intros [L A]. destruct a as [| c a]; [discriminate |]. unfold trim.
  pose proof A as A'. cbn in A'. apply andb_true_iff in A' as [Ac _].
  rewrite (trimStart_digit_first c a Ac). apply trimEnd_digits, A.
Qed.

Lemma Number_digits n a : Digits (S n) a -> Number a = Some (decimalValue a).
Proof.
  intros H. unfold Number. rewrite (trim_digits n a H).
  destruct H as [L A]. destruct a as [| c a]; [discriminate |]. rewrite A. reflexivity.
Qed.

(** The canonical text is left alone by [trim]. *)
Lemma trim_iso_text y m d :
  Digits 4 y -> Digits 2 m -> Digits 2 d ->
  trim (y ++ "-" ++ m ++ "-" ++ d) = y ++ "-" ++ m ++ "-" ++ d.
Proof.
  intros Hy Hm Hd. unfold trim.
  set (t := y ++ "-" ++ m ++ "-" ++ d).
  assert (Et : t = (y ++ "-" ++ m ++ "-") ++ d).
  { unfold t. rewrite !append_assoc. reflexivity. }
  assert (trimStart t = t) as ->.
  { unfold t. destruct y as [| c y]; [destruct Hy; discriminate |].
    pose proof (proj2 Hy) as A. cbn in A. apply andb_true_iff in A as [Ac _].
    cbn [String.append]. apply trimStart_digit_first, Ac. }
  rewrite Et. apply trimEnd_append_keep.
  - exact (Digits_nonempty _ _ Hd).
  - apply trimEnd_digits, Hd.
Qed.

Lemma normalizeDate_idem s n : normalizeDate s = Some n -> normalizeDate n = Some n.
Proof.
  intros H. apply normalizeDate_Some in H as (y & m & d & (Hy & Hm & Hd & _) & Hreal & ->).
  apply normalizeDate_Some. exists y, m, d. split; [| auto].
  repeat split; try apply Hy; try apply Hm; try apply Hd.
  left. apply trim_iso_text; assumption.
Qed.

Lemma normalizeDate_truthy s n : normalizeDate s = Some n -> truthy n = true.
Proof.
  intros H. apply normalizeDate_Some in H as (y & m & d & (Hy & _) & _ & ->).
  apply truthy_true. destruct y; [destruct Hy; discriminate | discriminate].
Qed.

Lemma parseDate_spec s dt :
  parseDate s = Some dt
  <-> exists y m d,
      DateText (trim s) y m d
      /\ RealDate (decimalValue y) (decimalValue m) (decimalValue d)
      /\ dt = newDate (decimalValue y) (decimalValue m - 1) (decimalValue d).
Proof.
  assert (Hparts : forall y m d,
             Digits 4 y -> Digits 2 m -> Digits 2 d ->
             map Number (split "-" (y ++ "-" ++ m ++ "-" ++ d))
             = [Some (decimalValue y); Some (decimalValue m); Some (decimalValue d)]).
  { intros y m d Hy Hm Hd.
    rewrite (split_digits_more y _ (proj2 Hy)), (split_digits_more m _ (proj2 Hm)),
      (split_digits_last d (proj2 Hd)). cbn [map].
    rewrite (Number_digits _ _ Hy), (Number_digits _ _ Hm), (Number_digits _ _ Hd).
    reflexivity. }
  unfold parseDate. split.
  - destruct (normalizeDate s) as [n |] eqn:En; [| discriminate].
    rewrite (normalizeDate_truthy s n En). cbn [negb].
    apply normalizeDate_Some in En as (y & m & d & Ht & Hreal & ->).
    destruct Ht as (Hy & Hm & Hd & Ht). rewrite (Hparts y m d Hy Hm Hd).
    intros [= <-]. exists y, m, d. unfold DateText. auto 10.
  - intros (y & m & d & Ht & Hreal & ->).
    assert (normalizeDate s = Some (y ++ "-" ++ m ++ "-" ++ d)) as En
        by (apply normalizeDate_Some; eauto 10).
    rewrite En, (normalizeDate_truthy s _ En). cbn [negb].
    destruct Ht as (Hy & Hm & Hd & Ht). rewrite (Hparts y m d Hy Hm Hd). reflexivity.
Qed.

Lemma parseDate_normalized s n : normalizeDate s = Some n -> parseDate n = parseDate s.
Proof.
  intros H. unfold parseDate. rewrite H, (normalizeDate_idem s n H). reflexivity.
Qed.




(** *** The disabled set *)

Lemma fold_left_elem {R : Type} (f : gset string -> R -> gset string) (C : R -> Prop)
      (x : string) (l : list R) :
  (forall acc r, In r l -> (x ∈ f acc r <-> x ∈ acc \/ C r)) ->
  forall acc, x ∈ fold_left f l acc <-> x ∈ acc \/ exists r, In r l /\ C r.
Proof.
  induction l as [| a l IH]; intros H acc; cbn [fold_left].
  - split; [auto |]. intros [Hx | (r & [] & _)]. assumption.
  - rewrite IH by (intros acc' r Hr; apply H; cbn; auto).
    rewrite (H acc a) by (cbn; auto). split.
    + intros [[Hx | Ha] | (r & Hr & Hc)]; [auto | |].
      * right. exists a. cbn. auto.
      * right. exists r. cbn. auto.
    + intros [Hx | (r & [<- | Hr] & Hc)]; [auto | auto |].
      right. exists r. auto.
Qed.

Lemma normalizeDisabledDates_elem x ds :
  x ∈ normalizeDisabledDates ds <-> exists s, In s ds /\ normalizeDate s = Some x.
Proof.
  unfold normalizeDisabledDates.
  rewrite (fold_left_elem _ (fun s => normalizeDate s = Some x)).
  - split; [intros [H | H]; [| assumption] | auto].
    exfalso. revert H. apply not_elem_of_empty.
  - intros acc r _. destruct (normalizeDate r) as [n |] eqn:E.
    + rewrite (normalizeDate_truthy r n E), elem_of_union, elem_of_singleton.
      split; intros [H | H]; auto; [subst; auto | injection H as ->; auto].
    + split; [auto |]. intros [H | H]; [assumption | discriminate].
Qed.



(** *** What the rules say *)













End AvailableDatesFacts.

(** ** Decimal digits *)

Section DecimalFacts.

Lemma code_inj (a b : ascii) : code a = code b -> a = b.
Proof.
  unfold code. intros H. apply N2Z.inj in H.
  rewrite <- (ascii_N_embedding a), <- (ascii_N_embedding b). congruence.
Qed.

Lemma decimalAcc_split (s : string) (acc : Z) :
  decimalAcc acc s = acc * 10 ^ Z.of_nat (String.length s) + decimalValue s.
Proof.
  unfold decimalValue. revert acc.
  induction s as [| c s IH]; intros acc; cbn [decimalAcc String.length].
  - cbn. lia.
  - rewrite (IH (acc * 10 + digitValue c)), (IH (0 * 10 + digitValue c)).
    rewrite Nat2Z.inj_succ, Z.pow_succ_r by lia. lia.
Qed.

Lemma decimalValue_cons (c : ascii) (s : string) :
  decimalValue (String c s) = digitValue c * 10 ^ Z.of_nat (String.length s) + decimalValue s.
Proof.
  unfold decimalValue at 1. cbn [decimalAcc]. rewrite decimalAcc_split. lia.
Qed.

Lemma decimalValue_bound (s : string) :
  allDigits s = true -> 0 <= decimalValue s < 10 ^ Z.of_nat (String.length s).
Proof.
  induction s as [| c s IH]; intros A.
  - cbn. lia.
  - cbn in A. apply andb_true_iff in A as [Ac A]. specialize (IH A).
    rewrite decimalValue_cons. cbn [String.length].
    rewrite Nat2Z.inj_succ, Z.pow_succ_r by lia.
    unfold isDigit, digitValue in *. nia.
Qed.

(** Runs of digits of the same length with the same value are the same. *)
Lemma decimalValue_inj (a b : string) :
  allDigits a = true -> allDigits b = true -> String.length a = String.length b ->
  decimalValue a = decimalValue b -> a = b.
Proof.
  revert b. induction a as [| x a IH]; intros [| y b] Aa Ab L V; try discriminate.
  - reflexivity.
  - cbn in Aa, Ab, L. injection L as L.
    apply andb_true_iff in Aa as [Ax Aa]. apply andb_true_iff in Ab as [Ay Ab].
    rewrite !decimalValue_cons, L in V.
    pose proof (decimalValue_bound a Aa) as Ba. pose proof (decimalValue_bound b Ab) as Bb.
    rewrite L in Ba.
    set (P := 10 ^ Z.of_nat (String.length b)) in *.
    assert (digitValue x = digitValue y) as Ed.
    { destruct (Z.lt_trichotomy (digitValue x) (digitValue y)) as [Hlt | [? | Hgt]];
        [exfalso | assumption | exfalso].
      - assert (1 * P <= (digitValue y - digitValue x) * P)
          by (apply Z.mul_le_mono_nonneg_r; lia).
        lia.
      - assert (1 * P <= (digitValue x - digitValue y) * P)
          by (apply Z.mul_le_mono_nonneg_r; lia).
        lia. }
    assert (decimalValue a = decimalValue b) as Ev by (rewrite Ed in V; lia).
    f_equal.
    + apply code_inj. unfold digitValue in Ed. lia.
    + apply IH; assumption.
Qed.

End DecimalFacts.

(** ** City ids *)

(** A rule's city id counts for the selected city as the code tests it:
    a rule without a city id, or with the id 0, counts whatever the city;
    any other rule counts for the city with the same id. *)
Definition CountsForCity (ruleCity city : option Z) : Prop :=
  ruleCity = None \/ ruleCity = Some 0
  \/ exists c, c <> 0 /\ ruleCity = Some c /\ city = Some c.

(** ** Date texts and dates *)

Module DateTextFacts.

Import DateAvailability NormalizeFacts AvailableDatesFacts.

Lemma year_table :
  forallb (fun k => let y := 1000 + Z.of_nat k in
                    (String.length (ofNumber y) =? 4)%nat
                    && allDigits (ofNumber y)
                    && (decimalValue (ofNumber y) =? y))
          (seq 0 (Z.to_nat 9000)) = true.
Proof. vm_compute. reflexivity. Qed.

(** A year from 1000 to 9999 prints as four digits. *)
Lemma year_facts y :
  1000 <= y <= 9999 -> Digits 4 (ofNumber y) /\ decimalValue (ofNumber y) = y.
Proof.
  intros Hy. pose proof year_table as H. rewrite forallb_forall in H.
  specialize (H (Z.to_nat (y - 1000))).
  assert (In (Z.to_nat (y - 1000)) (seq 0 (Z.to_nat 9000))) as Hin by (apply in_seq; lia).
  apply H in Hin. cbn zeta in Hin. rewrite Z2Nat.id in Hin by lia.
  replace (1000 + (y - 1000)) with y in Hin by lia.
  apply andb_true_iff in Hin as [Hin H3]. apply andb_true_iff in Hin as [H1 H2].
  apply Nat.eqb_eq in H1. apply Z.eqb_eq in H3. unfold Digits. auto.
Qed.

Lemma short_year_table :
  forallb (fun k => (String.length (ofNumber (Z.of_nat k)) <? 4)%nat) (seq 0 (Z.to_nat 1000)) = true.
Proof. vm_compute. reflexivity. Qed.

(** A year from 0 to 999 prints in fewer than four characters. *)
Lemma short_year_facts y : 0 <= y <= 999 -> (String.length (ofNumber y) < 4)%nat.
Proof.
  intros Hy. pose proof short_year_table as H. rewrite forallb_forall in H.
  specialize (H (Z.to_nat y)). rewrite Z2Nat.id in H by lia.
  apply Nat.ltb_lt, H, in_seq. lia.
Qed.

Lemma pad2_digits_table :
  forallb (fun k => allDigits (pad2 (Z.of_nat k))) (seq 0 100) = true.
Proof. vm_compute. reflexivity. Qed.

Lemma pad2_Digits n : 0 <= n <= 99 -> Digits 2 (pad2 n) /\ decimalValue (pad2 n) = n.
Proof.
  intros Hn. destruct (pad2_facts n Hn) as [L V].
  pose proof pad2_digits_table as H. rewrite forallb_forall in H.
  specialize (H (Z.to_nat n)). rewrite Z2Nat.id in H by lia.
  unfold Digits. repeat split; [assumption | | assumption].
  apply H, in_seq. lia.
Qed.

(** The canonical text of a day in the years 1000 to 9999 is a date text
    that names that day. *)
Lemma canonical_DateText day :
  1000 <= YearFromDay day <= 9999 ->
  exists y m d,
    canonical day = y ++ "-" ++ m ++ "-" ++ d
    /\ Digits 4 y /\ Digits 2 m /\ Digits 2 d
    /\ decimalValue y = YearFromDay day
    /\ decimalValue m = MonthFromDay day + 1
    /\ decimalValue d = DateFromDay day.
Proof.
  intros Hy.
  pose proof (MonthFromDay_range day). pose proof (DateFromDay_range day).
  destruct (year_facts _ Hy) as [Dy Vy].
  destruct (pad2_Digits (MonthFromDay day + 1)) as [Dm Vm]; [lia |].
  destruct (pad2_Digits (DateFromDay day)) as [Dd Vd]; [lia |].
  exists (ofNumber (YearFromDay day)), (pad2 (MonthFromDay day + 1)), (pad2 (DateFromDay day)).
  rewrite canonical_fields. auto 10.
Qed.







(** X2. A date text that parses gives back its normalized form when the
    parsed date is formatted, exactly when the year is 1000 or later: an
    earlier year is written with its leading zeros by [normalizeDate] and
    without them by [formatDateToString]. *)
Theorem parseDate_formatDateToString :
  forall (s : string) (dt : Date),
    parseDate s = Some dt ->
    (normalizeDate s = Some (formatDateToString dt) <-> 1000 <= getFullYear dt).
Proof.
  intros s dt H. apply parseDate_spec in H as (y & m & d & Ht & Hreal & ->).
  assert (En : normalizeDate s = Some (y ++ "-" ++ m ++ "-" ++ d))
    by (apply normalizeDate_Some; eauto 10).
  destruct Ht as (Dy & Dm & Dd & _).
  destruct Hreal as (Hm & Hd & Ey & Em & Ed).
  unfold formatDateToString. rewrite Ey, Em, Ed.
  replace (decimalValue m - 1 + 1) with (decimalValue m) by lia.
  fold (pad2 (decimalValue m)). fold (pad2 (decimalValue d)).
  destruct (pad2_Digits (decimalValue m)) as [Pm Vm]; [lia |].
  destruct (pad2_Digits (decimalValue d)) as [Pd Vd]; [lia |].
  assert (pad2 (decimalValue m) = m) as ->.
  { apply decimalValue_inj; try apply Pm; try apply Dm; [| assumption].
    destruct Pm as [-> _], Dm as [-> _]. reflexivity. }
  assert (pad2 (decimalValue d) = d) as ->.
  { apply decimalValue_inj; try apply Pd; try apply Dd; [| assumption].
    destruct Pd as [-> _], Dd as [-> _]. reflexivity. }
  pose proof (decimalValue_bound y (proj2 Dy)) as By.
  rewrite (proj1 Dy) in By. change (10 ^ Z.of_nat 4) with 10000 in By.
  rewrite En. split.
  - intros [= E]. destruct (Z.le_gt_cases 1000 (decimalValue y)) as [? | Hlt]; [assumption |].
    exfalso. pose proof (short_year_facts (decimalValue y)) as Hs.
    apply (f_equal String.length) in E. rewrite !length_append in E.
    destruct Dy as [Ly _]. lia.
  - intros Hy. destruct (year_facts (decimalValue y)) as [Py Vy]; [lia |].
    do 2 f_equal. symmetry. apply decimalValue_inj; try apply Py; try apply Dy; [| assumption].
    destruct Py as [-> _], Dy as [-> _]. reflexivity.
Qed.

Lemma parseDate_formatDateToString_witness :
  parseDate "25/12/2024" = Some (newDate 2024 11 25)
  /\ normalizeDate "25/12/2024" = Some (formatDateToString (newDate 2024 11 25)).
Proof.
  assert (H : parseDate "25/12/2024" = Some (newDate 2024 11 25)) by (vm_compute; reflexivity).
  split; [exact H |].
  apply (proj2 (parseDate_formatDateToString "25/12/2024" (newDate 2024 11 25) H)).
  vm_compute. discriminate.
Defined.

(** X3. The text [normalizeDate] returns is a fixed point of
    [normalizeDate]: ten characters long, it normalizes to itself and
    parses to the same date as the text it came from. *)
Theorem normalizeDate_idempotent :
  forall s n : string,
    normalizeDate s = Some n ->
    normalizeDate n = Some n
    /\ parseDate n = parseDate s
    /\ String.length n = 10%nat.
Proof.
  intros s n H. split; [exact (normalizeDate_idem s n H) |].
  split; [exact (parseDate_normalized s n H) |].
  apply normalizeDate_Some in H as (y & m & d & (Dy & Dm & Dd & _) & _ & ->).
  rewrite !length_append. destruct Dy as [-> _], Dm as [-> _], Dd as [-> _]. reflexivity.
Qed.

Lemma normalizeDate_idempotent_witness :
  normalizeDate " 29/02/2024 " = Some "2024-02-29"
  /\ normalizeDate "2024-02-29" = Some "2024-02-29".
Proof.
  assert (H : normalizeDate " 29/02/2024 " = Some "2024-02-29") by (vm_compute; reflexivity).
  split; [exact H |].
  exact (proj1 (normalizeDate_idempotent " 29/02/2024 " "2024-02-29" H)).
Defined.

Lemma trim_euro_text y m d :
  Digits 4 y -> Digits 2 m -> Digits 2 d ->
  trim (d ++ "/" ++ m ++ "/" ++ y) = d ++ "/" ++ m ++ "/" ++ y.
Proof.
  intros Hy Hm Hd. unfold trim.
  set (t := d ++ "/" ++ m ++ "/" ++ y).
  assert (Et : t = (d ++ "/" ++ m ++ "/") ++ y).
  { unfold t. rewrite !append_assoc. reflexivity. }
  assert (trimStart t = t) as ->.
  { unfold t. destruct d as [| c d]; [destruct Hd; discriminate |].
    pose proof (proj2 Hd) as A. cbn in A. apply andb_true_iff in A as [Ac _].
    cbn [String.append]. apply trimStart_digit_first, Ac. }
  rewrite Et. apply trimEnd_append_keep.
  - exact (Digits_nonempty _ _ Hy).
  - apply trimEnd_digits, Hy.
Qed.

(** A text has at most one reading as a date text. *)
Lemma DateText_unique t y m d y' m' d' :
  DateText t y m d -> DateText t y' m' d' -> y = y' /\ m = m' /\ d = d'.
Proof.
  intros (Dy & Dm & Dd & Ht) (Dy' & Dm' & Dd' & Ht').
  destruct Ht as [-> | ->], Ht' as [E | E].
  - apply append_inv_prefix in E as [-> E]; [| destruct Dy as [-> _], Dy' as [-> _]; reflexivity].
    cbn in E. injection E as E.
    apply append_inv_prefix in E as [-> E]; [| destruct Dm as [-> _], Dm' as [-> _]; reflexivity].
    cbn in E. injection E as ->. auto.
  - exfalso. exact (iso_not_euro _ _ _ _ _ _ Dy Dd' E).
  - exfalso. symmetry in E. exact (iso_not_euro _ _ _ _ _ _ Dy' Dd E).
  - apply append_inv_prefix in E as [-> E]; [| destruct Dd as [-> _], Dd' as [-> _]; reflexivity].
    cbn in E. injection E as E.
    apply append_inv_prefix in E as [-> E]; [| destruct Dm as [-> _], Dm' as [-> _]; reflexivity].
    cbn in E. injection E as ->. auto.
Qed.

(** What [normalizeDate] gives for a date text. *)
Lemma normalizeDate_DateText s y m d :
  DateText (trim s) y m d ->
  normalizeDate s
  = if isValidDateComponents (decimalValue y) (decimalValue m) (decimalValue d)
    then Some (y ++ "-" ++ m ++ "-" ++ d) else None.
Proof.
  intros Ht. destruct (isValidDateComponents _ _ _) eqn:Ev.
  - apply isValidDateComponents_spec in Ev. apply normalizeDate_Some. eauto 10.
  - destruct (normalizeDate s) as [r |] eqn:En; [| reflexivity].
    apply normalizeDate_Some in En as (y' & m' & d' & Ht' & Hreal & _).
    destruct (DateText_unique _ _ _ _ _ _ _ Ht Ht') as (<- & <- & <-).
    apply isValidDateComponents_spec in Hreal. congruence.
Qed.

(** X4. The two accepted formats name the same days: [DD/MM/YYYY] and
    [YYYY-MM-DD] built from the same digits normalize to the same result,
    the canonical text or null. *)
Theorem normalizeDate_formats_agree :
  forall y m d : string,
    Digits 4 y -> Digits 2 m -> Digits 2 d ->
    normalizeDate (d ++ "/" ++ m ++ "/" ++ y) = normalizeDate (y ++ "-" ++ m ++ "-" ++ d).
Proof.
  intros y m d Dy Dm Dd.
  rewrite (normalizeDate_DateText (d ++ "/" ++ m ++ "/" ++ y) y m d).
  2: { unfold DateText. rewrite trim_euro_text by assumption. auto 10. }
  rewrite (normalizeDate_DateText (y ++ "-" ++ m ++ "-" ++ d) y m d).
  2: { unfold DateText. rewrite trim_iso_text by assumption. auto 10. }
  reflexivity.
Qed.

Lemma normalizeDate_formats_agree_witness :
  Digits 4 "2024" /\ Digits 2 "02" /\ Digits 2 "30"
  /\ normalizeDate "30/02/2024" = normalizeDate "2024-02-30".
Proof.
  assert (D4 : Digits 4 "2024") by (split; reflexivity).
  assert (D2 : Digits 2 "02") by (split; reflexivity).
  assert (D2' : Digits 2 "30") by (split; reflexivity).
  split; [exact D4 |]. split; [exact D2 |]. split; [exact D2' |].
  exact (normalizeDate_formats_agree "2024" "02" "30" D4 D2 D2').
Defined.

End DateTextFacts.

(** ** Windows of days *)

Module WindowFacts.

Import DateAvailability NormalizeFacts AvailableDatesFacts DateTextFacts.

(** X5. [isDateAvailable] on a date given as text: the date is available
    exactly when the text normalizes to a canonical date and no entry of
    the disabled list normalizes to the same canonical date, whichever of
    the two formats each is written in; a text that is not a date is never
    available, and entries that are not dates are ignored. *)
Theorem isDateAvailable_text :
  forall (date : string) (disabledDates : list string),
    isDateAvailableStr date disabledDates = true
    <-> exists n,
        normalizeDate date = Some n
        /\ (forall s, In s disabledDates -> normalizeDate s <> Some n).
Proof.
  intros date ds. unfold isDateAvailableStr.
  destruct (normalizeDate date) as [n |] eqn:En.
  - rewrite (normalizeDate_truthy date n En). cbn [negb].
    rewrite negb_true_iff, bool_decide_eq_false, normalizeDisabledDates_elem. split.
    + intros Hn. exists n. split; [reflexivity |]. intros s Hs E. apply Hn. eauto.
    + intros (n' & [= <-] & Hn) (s & Hs & E). exact (Hn s Hs E).
  - split; [discriminate |]. intros (n & [=] & _).
Qed.

Lemma daysFrom_app a n k :
  daysFrom a (n + k) = (daysFrom a n ++ daysFrom (a + Z.of_nat n) k)%list.
Proof.
  revert a. induction n as [| n IH]; intros a.
  - cbn. f_equal. lia.
  - cbn [Nat.add daysFrom app]. rewrite IH. do 3 f_equal. lia.
Qed.

(** The set of disabled texts [getAvailableDates] works with. *)
Definition disabledSetOf (source : DisableSource) (city : option Z) : gset string :=
  match source with
  | DisabledStrings [] | DisabledRules [] => ∅
  | DisabledStrings ds => normalizeDisabledDates ds
  | DisabledRules rs => buildDisabledDateSet rs city
  end.

Lemma getAvailableDates_days start n source city :
  getAvailableDates start n source city
  = map canonical
        (List.filter (fun day => negb (bool_decide (canonical day ∈ disabledSetOf source city)))
                     (daysFrom (Day (timeValue start)) (Z.to_nat n))).
Proof.
  unfold getAvailableDates. destruct (Z.leb_spec n 0) as [Hn | Hn].
  - replace (Z.to_nat n) with O by lia. reflexivity.
  - rewrite walkDays_spec. reflexivity.
Qed.



(** X8. Windows compose: the dates available in a window of [a + b] days
    are those of the first [a] days followed by those of the [b] days that
    start [a] days later. *)
Theorem getAvailableDates_split :
  forall (start : Date) (a b : Z) (source : DisableSource) (city : option Z),
    0 <= a -> 0 <= b ->
    getAvailableDates start (a + b) source city
    = (getAvailableDates start a source city
         ++ getAvailableDates (addDays start a) b source city)%list.
Proof.
  intros start a b source city Ha Hb. rewrite !getAvailableDates_days.
  rewrite Z2Nat.inj_add, daysFrom_app, List.filter_app, map_app by lia.
  do 4 f_equal. rewrite Z2Nat.id by lia.
  unfold addDays. rewrite setDate_shift. cbn [copyDate timeValue].
  unfold Day, msPerDay. divmod.
Qed.

Lemma getAvailableDates_split_witness :
  0 <= 3 /\ 0 <= 4
  /\ getAvailableDates (newDate 2024 11 24) (3 + 4) (DisabledStrings ["25/12/2024"]) None
     = (getAvailableDates (newDate 2024 11 24) 3 (DisabledStrings ["25/12/2024"]) None
          ++ getAvailableDates (addDays (newDate 2024 11 24) 3) 4
               (DisabledStrings ["25/12/2024"]) None)%list.
Proof.
  assert (H3 : 0 <= 3) by lia. assert (H4 : 0 <= 4) by lia.
  split; [exact H3 |]. split; [exact H4 |].
  exact (getAvailableDates_split (newDate 2024 11 24) 3 4 (DisabledStrings ["25/12/2024"])
                                 None H3 H4).
Defined.


(** X10. [normalizeDisabledDates] holds exactly the canonical texts
    the entries normalize to: entries that are not dates leave no trace,
    entries in either format that name the same day coincide, and the
    order and the grouping of the entries do not matter. *)
Theorem normalizeDisabledDates_members :
  forall (a b : list string) (x : string),
    (x ∈ normalizeDisabledDates a <-> exists s, In s a /\ normalizeDate s = Some x)
    /\ (x ∈ normalizeDisabledDates a -> normalizeDate x = Some x)
    /\ normalizeDisabledDates (a ++ b) = normalizeDisabledDates a ∪ normalizeDisabledDates b.
Proof.
  intros a b x. split; [apply normalizeDisabledDates_elem |]. split.
  - intros H. apply normalizeDisabledDates_elem in H as (s & _ & E).
    exact (normalizeDate_idem s x E).
  - apply set_eq. intros y.
    rewrite elem_of_union, !normalizeDisabledDates_elem. split.
    + intros (s & Hin & E). apply in_app_or in Hin as [Hin | Hin]; eauto.
    + intros [(s & Hin & E) | (s & Hin & E)]; exists s; (split; [| exact E]);
        apply in_or_app; auto.
Qed.

End WindowFacts.

(** ** The disabled set, for any rules *)

Module DisabledSetFacts.

Import DateAvailability NormalizeFacts AvailableDatesFacts.










End DisabledSetFacts.

(** ** The order of canonical texts *)

Module DateOrderFacts.

Import DateAvailability NormalizeFacts AvailableDatesFacts DateTextFacts.

(** Lexicographic combination of two comparisons. *)
Definition thenCompare (c : comparison) (rest : comparison) : comparison :=
  match c with
  | Eq => rest
  | _ => c
  end.

Lemma ascii_compare_code x y : Ascii.compare x y = (code x ?= code y).
Proof. unfold Ascii.compare, code. symmetry. apply N2Z.inj_compare. Qed.

(** Runs of digits of the same length compare as their values do. *)
Lemma compare_digits a b r1 r2 :
  allDigits a = true -> allDigits b = true -> String.length a = String.length b ->
  String.compare (a ++ r1) (b ++ r2)
  = thenCompare (decimalValue a ?= decimalValue b) (String.compare r1 r2).
Proof.
  revert b. induction a as [| x a IH]; intros [| y b] Aa Ab L; try discriminate.
  - reflexivity.
  - cbn in Aa, Ab, L. injection L as L.
    apply andb_true_iff in Aa as [Ax Aa]. apply andb_true_iff in Ab as [Ay Ab].
    cbn [String.append String.compare]. rewrite ascii_compare_code, (IH b Aa Ab L).
    rewrite !decimalValue_cons, L.
    pose proof (decimalValue_bound a Aa) as Ba. pose proof (decimalValue_bound b Ab) as Bb.
    rewrite L in Ba. set (P := 10 ^ Z.of_nat (String.length b)) in *.
    unfold digitValue.
    destruct (Z.compare_spec (code x) (code y)) as [E | Hlt | Hgt].
    + rewrite E. unfold thenCompare.
      destruct (Z.compare_spec (decimalValue a) (decimalValue b)) as [E' | Hlt' | Hgt'].
      * rewrite E', Z.compare_refl. reflexivity.
      * assert ((code y - 48) * P + decimalValue a < (code y - 48) * P + decimalValue b) as H
            by lia.
        apply Z.compare_lt_iff in H. rewrite H. reflexivity.
      * assert (((code y - 48) * P + decimalValue a ?= (code y - 48) * P + decimalValue b)
                = Gt) as H by (apply Z.compare_gt_iff; lia).
        rewrite H. reflexivity.
    + assert (1 * P <= (code y - code x) * P) as HP by (apply Z.mul_le_mono_nonneg_r; lia).
      assert ((code x - 48) * P + decimalValue a < (code y - 48) * P + decimalValue b) as H
          by lia.
      apply Z.compare_lt_iff in H. rewrite H. reflexivity.
    + assert (1 * P <= (code x - code y) * P) as HP by (apply Z.mul_le_mono_nonneg_r; lia).
      assert (((code x - 48) * P + decimalValue a ?= (code y - 48) * P + decimalValue b)
              = Gt) as H by (apply Z.compare_gt_iff; lia).
      rewrite H. reflexivity.
Qed.

(** Year, month and day of the month, compared in that order. *)
Definition compareFields (a b : Z) : comparison :=
  thenCompare (YearFromDay a ?= YearFromDay b)
    (thenCompare (MonthFromDay a + 1 ?= MonthFromDay b + 1)
       (DateFromDay a ?= DateFromDay b)).

Lemma compare_canonical a b :
  1000 <= YearFromDay a <= 9999 -> 1000 <= YearFromDay b <= 9999 ->
  String.compare (canonical a) (canonical b) = compareFields a b.
Proof.
  intros Ha Hb.
  destruct (canonical_DateText a Ha) as (y & m & d & -> & Dy & Dm & Dd & Vy & Vm & Vd).
  destruct (canonical_DateText b Hb) as (y' & m' & d' & -> & Dy' & Dm' & Dd' & Vy' & Vm' & Vd').
  unfold compareFields. rewrite <- Vy, <- Vm, <- Vd, <- Vy', <- Vm', <- Vd'.
  rewrite compare_digits; try apply Dy; try apply Dy';
    [| destruct Dy as [-> _], Dy' as [-> _]; reflexivity].
  f_equal. cbn [String.append String.compare]. rewrite ascii_compare_code, Z.compare_refl.
  rewrite compare_digits; try apply Dm; try apply Dm';
    [| destruct Dm as [-> _], Dm' as [-> _]; reflexivity].
  f_equal. cbn [String.append String.compare]. rewrite ascii_compare_code, Z.compare_refl.
  assert (String.length d = String.length d') as Ld
      by (destruct Dd as [-> _], Dd' as [-> _]; reflexivity).
  pose proof (compare_digits d d' "" "" (proj2 Dd) (proj2 Dd') Ld) as H.
  rewrite !append_nil_r in H. rewrite H.
  destruct (decimalValue d ?= decimalValue d'); reflexivity.
Qed.

(** Earlier days have smaller fields. *)
Lemma compareFields_lt a b : a < b -> compareFields a b = Lt.
Proof.
  intros Hlt. unfold compareFields, thenCompare.
  pose proof (YearFromDay_bounds a) as Ba. pose proof (YearFromDay_bounds b) as Bb.
  assert (YearFromDay a <= YearFromDay b) as Hy.
  { destruct (Z.le_gt_cases (YearFromDay a) (YearFromDay b)) as [? | Hgt]; [assumption |].
    pose proof (DayFromYear_mono (YearFromDay b + 1) (YearFromDay a)). lia. }
  destruct (Z.compare_spec (YearFromDay a) (YearFromDay b)) as [Ey | ? | ?];
    [| reflexivity | lia].
  assert (InLeapYear a = InLeapYear b) as El by (unfold InLeapYear; rewrite Ey; reflexivity).
  assert (DayWithinYear a < DayWithinYear b) as Hw by (unfold DayWithinYear; rewrite Ey; lia).
  pose proof (DayWithinYear_range a) as Ra. pose proof (DayWithinYear_range b) as Rb.
  unfold DateFromDay, MonthFromDay. rewrite El.
  destruct (InLeapYear_cases b) as [E | E]; rewrite E in *;
    repeat match goal with
           | |- context [?x <? ?y] => destruct (Z.ltb_spec x y); try lia
           end;
    try reflexivity; rewrite Z.compare_refl; apply Z.compare_lt_iff; lia.
Qed.

Lemma compareFields_spec a b : compareFields a b = (a ?= b).
Proof.
  destruct (Z.compare_spec a b) as [-> | Hlt | Hgt].
  - unfold compareFields. rewrite !Z.compare_refl. reflexivity.
  - apply compareFields_lt, Hlt.
  - pose proof (compareFields_lt b a Hgt) as H. unfold compareFields, thenCompare in *.
    rewrite (Z.compare_antisym (YearFromDay a)), (Z.compare_antisym (MonthFromDay a + 1)),
      (Z.compare_antisym (DateFromDay a)) in H.
    destruct (YearFromDay a ?= YearFromDay b); cbn in H; try discriminate; try reflexivity.
    destruct (MonthFromDay a + 1 ?= MonthFromDay b + 1); cbn in H;
      try discriminate; try reflexivity.
    destruct (DateFromDay a ?= DateFromDay b); cbn in H; try discriminate; reflexivity.
Qed.

(** On canonical texts the order of strings is the order of days. *)
Lemma ltb_canonical a b :
  1000 <= YearFromDay a <= 9999 -> 1000 <= YearFromDay b <= 9999 ->
  String.ltb (canonical a) (canonical b) = (a <? b).
Proof.
  intros Ha Hb. unfold String.ltb. rewrite (compare_canonical a b Ha Hb), compareFields_spec.
  unfold Z.ltb. reflexivity.
Qed.

End DateOrderFacts.

(** ** Ranges of dates, and the clock *)

Module DateRangeFacts.

Import DateAvailability AvailableDatesFacts DateOrderFacts.

(** X12. On canonical texts of days in the years 1000 to 9999 the range
    test of the slot rules follows the calendar: with an end date the
    date must lie between start and end, both included; without one, or
    with an empty one, every date from the start date on is in range.
    [isDateInDisableRange] of the date service is the same test. *)
Theorem isDateInRange_chronological :
  forall day first last : Z,
    1000 <= YearFromDay day <= 9999 ->
    1000 <= YearFromDay first <= 9999 ->
    1000 <= YearFromDay last <= 9999 ->
    (SlotAvailability.isDateInRange (canonical day) (canonical first) (Some (canonical last))
     = true <-> first <= day <= last)
    /\ (SlotAvailability.isDateInRange (canonical day) (canonical first) None = true
        <-> first <= day)
    /\ (SlotAvailability.isDateInRange (canonical day) (canonical first) (Some "") = true
        <-> first <= day)
    /\ isDateInDisableRange (canonical day) (canonical first) (Some (canonical last))
       = SlotAvailability.isDateInRange (canonical day) (canonical first)
                                        (Some (canonical last)).
Proof.
  intros day first last Hd Hf Hl.
  unfold SlotAvailability.isDateInRange, isDateInDisableRange.
  rewrite (ltb_canonical day first Hd Hf), (ltb_canonical last day Hl Hd), canonical_truthy.
  cbn [truthy atEnd negb andb].
  destruct (Z.ltb_spec day first), (Z.ltb_spec last day); repeat split; intros; try lia;
    try discriminate; try reflexivity.
Qed.

Lemma isDateInRange_chronological_witness :
  let day := Day (timeValue (newDate 2024 11 25)) in
  let first := Day (timeValue (newDate 2024 11 24)) in
  let last := Day (timeValue (newDate 2025 0 2)) in
  1000 <= YearFromDay day <= 9999
  /\ 1000 <= YearFromDay first <= 9999
  /\ 1000 <= YearFromDay last <= 9999
  /\ (SlotAvailability.isDateInRange (canonical day) (canonical first) (Some (canonical last))
      = true <-> first <= day <= last).
Proof.
  intros day first last.
  assert (Hd : 1000 <= YearFromDay day <= 9999) by (vm_compute; split; discriminate).
  assert (Hf : 1000 <= YearFromDay first <= 9999) by (vm_compute; split; discriminate).
  assert (Hl : 1000 <= YearFromDay last <= 9999) by (vm_compute; split; discriminate).
  split; [exact Hd |]. split; [exact Hf |]. split; [exact Hl |].
  exact (proj1 (isDateInRange_chronological day first last Hd Hf Hl)).
Defined.

End DateRangeFacts.

Module CutoffClockFacts.

Import DateAvailability CityCutoff CityCutoffFacts AvailableDatesFacts WindowFacts.

Lemma getHours_range d : 0 <= getHours d <= 23.
Proof. unfold getHours. divmod. Qed.

Lemma getMinutes_range d : 0 <= getMinutes d <= 59.
Proof. unfold getMinutes. divmod. Qed.

(** X13. [getTimeUntilCutoff] returns null exactly when same-day delivery
    is no longer available; otherwise it returns the time left until the
    city's cutoff: a positive span of whole hours and 0 to 59 minutes
    which, added to the current hour and minute, gives the cutoff. *)
Theorem getTimeUntilCutoff_remaining :
  forall (city : DeliveryCity) (now : Date),
    match getTimeUntilCutoff city now with
    | None => isSameDayDeliveryAvailable city now = false
    | Some remaining =>
        isSameDayDeliveryAvailable city now = true
        /\ 0 <= hours remaining /\ 0 <= minutes remaining <= 59
        /\ 0 < hours remaining * 60 + minutes remaining
        /\ exists cutoff,
            parseTime (getCityCutoffTime city) = Some cutoff
            /\ (getHours now * 60 + getMinutes now) + (hours remaining * 60 + minutes remaining)
               = hours cutoff * 60 + minutes cutoff
    end.
Proof.
  intros city now. unfold getTimeUntilCutoff, isSameDayDeliveryAvailable.
  destruct (parseTime (getCityCutoffTime city)) as [[h m] |] eqn:Ep.
  2: { unfold isBeforeCutoff. rewrite Ep. reflexivity. }
  destruct (isBeforeCutoff (getCityCutoffTime city) now) eqn:Eb; cbn [negb]; [| reflexivity].
  pose proof (getHours_range now) as Hh. pose proof (getMinutes_range now) as Hm.
  apply parseTime_spec in Ep as Hr.
  destruct Hr as (hs & ms & _ & _ & _ & _ & _ & _ & _ & Rh & Rm).
  unfold isBeforeCutoff in Eb. rewrite Ep in Eb. cbn [hours minutes] in *.
  assert (Hpos : 0 < h * 60 + m - (getHours now * 60 + getMinutes now)).
  { destruct (Z.ltb_spec (getHours now) h); [lia |].
    destruct (Z.eqb_spec (getHours now) h); cbn in Eb; [| discriminate].
    destruct (Z.ltb_spec (getMinutes now) m); [lia | discriminate]. }
  set (diff := h * 60 + m - (getHours now * 60 + getMinutes now)) in *.
  assert (Hrem : Z.rem diff 60 = diff mod 60) by (apply Z.rem_mod_nonneg; lia).
  rewrite Hrem. split; [reflexivity |].
  split; [divmod |]. split; [divmod |]. split; [divmod |].
  exists {| hours := h; minutes := m |}. split; [reflexivity |]. cbn [hours minutes]. divmod.
Qed.

(** X14. A city without a cutoff time, or with an empty one, uses the
    default 23:59: same-day delivery is available at every minute of the
    day except the last. *)
Theorem default_cutoff_last_minute :
  forall (city : DeliveryCity) (now : Date),
    cutoffTime city = None \/ cutoffTime city = Some "" ->
    getCityCutoffTime city = "23:59"
    /\ (isSameDayDeliveryAvailable city now = true
        <-> ~ (getHours now = 23 /\ getMinutes now = 59)).
Proof.
  intros city now Hc.
  assert (E : getCityCutoffTime city = "23:59").
  { unfold getCityCutoffTime. destruct Hc as [-> | ->]; reflexivity. }
  split; [exact E |].
  unfold isSameDayDeliveryAvailable, isBeforeCutoff. rewrite E.
  change (parseTime "23:59") with (Some {| hours := 23; minutes := 59 |}).
  cbn [hours minutes].
  pose proof (getHours_range now) as Hh. pose proof (getMinutes_range now) as Hm.
  destruct (Z.ltb_spec (getHours now) 23); [split; [lia | reflexivity] |].
  destruct (Z.eqb_spec (getHours now) 23); [| lia]. cbn [andb].
  destruct (Z.ltb_spec (getMinutes now) 59); split; intros; try reflexivity; try lia;
    try discriminate.
Qed.

Lemma default_cutoff_last_minute_witness :
  let city := {| id := 3; name := "Uptown"; isSpecial := false; cutoffTime := None |} in
  (cutoffTime city = None \/ cutoffTime city = Some "")
  /\ getCityCutoffTime city = "23:59".
Proof.
  intros city.
  assert (H : cutoffTime city = None \/ cutoffTime city = Some "") by (left; reflexivity).
  split; [exact H |].
  exact (proj1 (default_cutoff_last_minute city (localDateTime 2024 12 24 23 59) H)).
Defined.



End CutoffClockFacts.

(** ** Lists of slots *)

Module SlotListFacts.

Import SlotAvailability.

(** The rule is for the slot, counts for the city and covers the date. *)
Definition Hits (s : TimeSlot) (date : string) (city : option Z) (rule : SlotDisableRule)
  : Prop :=
  timeSlotId rule = id s
  /\ isDateInRange date (startDate rule) (endDate rule) = true
  /\ CountsForCity (cityId rule) city.

Lemma falsy_id (o : option Z) : truthyId o = false <-> o = None \/ o = Some 0.
Proof.
  destruct o as [n |]; cbn.
  - rewrite negb_false_iff, Z.eqb_eq. split; [intros ->; auto | intros [H | [= ->]]; congruence].
  - split; auto.
Qed.

Lemma find_existsb {A} (p : A -> bool) (l : list A) :
  match find p l with Some _ => true | None => false end = existsb p l.
Proof. induction l as [| a l IH]; cbn; [reflexivity |]. destruct (p a); cbn; auto. Qed.

Lemma checkDateSpecificDisable_flag slotId date rules :
  checkDisabled (checkDateSpecificDisable slotId date rules) = true
  <-> exists rule,
      In rule rules /\ timeSlotId rule = slotId
      /\ isDateInRange date (startDate rule) (endDate rule) = true
      /\ (cityId rule = None \/ cityId rule = Some 0).
Proof.
  unfold checkDateSpecificDisable.
  match goal with |- context [find ?p rules] => set (pd := p) end.
  assert (checkDisabled match find pd rules with
                         | Some dateRule =>
                             {| checkDisabled := true;
                                checkReason :=
                                  Some (match reason dateRule with
                                        | Some r =>
                                            if truthy r then "Disabled: " ++ r
                                            else "Disabled on " ++ date
                                        | None => "Disabled on " ++ date
                                        end) |}
                         | None => {| checkDisabled := false; checkReason := None |}
                         end
          = existsb pd rules) as ->.
  { rewrite <- find_existsb. destruct (find pd rules); reflexivity. }
  rewrite existsb_exists.
  split; intros (rule & Hin & Hp); exists rule; (split; [assumption |]);
    unfold pd in *; rewrite !andb_true_iff, Z.eqb_eq, negb_true_iff, falsy_id in *; tauto.
Qed.

Lemma checkCityDateDisable_flag slotId date c rules :
  checkDisabled (checkCityDateDisable slotId date c rules) = true
  <-> exists rule,
      In rule rules /\ timeSlotId rule = slotId
      /\ isDateInRange date (startDate rule) (endDate rule) = true
      /\ cityId rule = Some c.
Proof.
  unfold checkCityDateDisable.
  match goal with |- context [find ?p rules] => set (pc := p) end.
  assert (checkDisabled match find pc rules with
                         | Some cityDateRule =>
                             {| checkDisabled := true;
                                checkReason :=
                                  Some (match reason cityDateRule with
                                        | Some r =>
                                            if truthy r then "Disabled: " ++ r
                                            else "Disabled for this city on " ++ date
                                        | None => "Disabled for this city on " ++ date
                                        end) |}
                         | None => {| checkDisabled := false; checkReason := None |}
                         end
          = existsb pc rules) as ->.
  { rewrite <- find_existsb. destruct (find pc rules); reflexivity. }
  assert (Hc : forall rule, match cityId rule with Some c' => c' =? c | None => false end = true
                            <-> cityId rule = Some c).
  { intros rule. destruct (cityId rule) as [c' |]; [| split; discriminate].
    rewrite Z.eqb_eq. split; congruence. }
  rewrite existsb_exists.
  split; intros (rule & Hin & Hp); exists rule; (split; [assumption |]);
    unfold pc in *; rewrite !andb_true_iff, Z.eqb_eq, Hc in *; tauto.
Qed.

Lemma checkSlotAvailability_flag s date city rules :
  disabled (checkSlotAvailability s date city rules) = true
  <-> isActive s = false \/ exists rule, In rule rules /\ Hits s date city rule.
Proof.
  - unfold checkSlotAvailability, checkSlotActive, Hits, CountsForCity.
    destruct (isActive s) eqn:Eact; cbn [negb checkDisabled checkReason disabled].
    2: { split; auto. }
    pose proof (checkDateSpecificDisable_flag (id s) date rules) as Hd.
    destruct (checkDisabled (checkDateSpecificDisable (id s) date rules));
      cbn [disabled].
    { split; [intros _ | reflexivity]. right.
      destruct (proj1 Hd eq_refl) as (rule & Hin & E1 & E2 & E3). exists rule. tauto. }
    assert (Hnd : forall rule, In rule rules -> timeSlotId rule = id s ->
                               isDateInRange date (startDate rule) (endDate rule) = true ->
                               ~ (cityId rule = None \/ cityId rule = Some 0)).
    { intros rule Hin E1 E2 E3. assert (false = true) as Hf by (apply Hd; eauto 10).
      discriminate. }
    destruct city as [c |]; cbn [truthyId].
    + destruct (Z.eqb_spec c 0) as [-> | Hc]; cbn [negb disabled].
      * split; [discriminate |].
        intros [H | (rule & Hin & E1 & E2 & [E3 | [E3 | (c & Hc & E3 & [= <-])]])];
          [discriminate | | | congruence]; exfalso; apply (Hnd rule Hin E1 E2); auto.
      * pose proof (checkCityDateDisable_flag (id s) date c rules) as Hcity.
        destruct (checkDisabled (checkCityDateDisable (id s) date c rules));
          cbn [disabled].
        -- split; [intros _ | reflexivity]. right.
           destruct (proj1 Hcity eq_refl) as (rule & Hin & E1 & E2 & E3).
           exists rule. repeat split; try assumption. right. right. eauto.
        -- split; [discriminate |].
           intros [H | (rule & Hin & E1 & E2 & [E3 | [E3 | (c' & Hc' & E3 & [= <-])]])];
             [discriminate | | |];
             [exfalso; apply (Hnd rule Hin E1 E2); auto
             | exfalso; apply (Hnd rule Hin E1 E2); auto |].
           apply Hcity. eauto 10.
    + cbn [disabled]. split; [discriminate |].
      intros [H | (rule & Hin & E1 & E2 & [E3 | [E3 | (c & Hc & E3 & [=])]])];
        [discriminate | |]; exfalso; apply (Hnd rule Hin E1 E2); auto.
Qed.

Lemma checkSlotAvailability_reason s date city rules :
  resultReason (checkSlotAvailability s date city rules) = None
  <-> disabled (checkSlotAvailability s date city rules) = false.
Proof.
  - unfold checkSlotAvailability, checkSlotActive, checkDateSpecificDisable,
      checkCityDateDisable.
    destruct (isActive s); cbn [negb checkDisabled checkReason disabled resultReason];
      [| split; discriminate].
    destruct (find _ rules); cbn [checkDisabled checkReason disabled resultReason];
      [split; discriminate |].
    destruct city as [c |]; [| split; reflexivity].
    destruct (truthyId (Some c)); [| split; reflexivity].
    destruct (find _ rules); cbn [checkDisabled checkReason disabled resultReason];
      split; try discriminate; reflexivity.
Qed.

(** X16. The flag of [checkSlotAvailability] does not depend on the
    order of the rules: a slot is disabled exactly when it is inactive or
    some rule is for the slot, covers the date and counts for the selected
    city (a rule without a city id, or with the id 0, counts whatever the
    city).  A reason is given exactly when the slot is disabled. *)
Theorem checkSlotAvailability_any_rule :
  forall (s : TimeSlot) (date : string) (city : option Z) (rules : list SlotDisableRule),
    (disabled (checkSlotAvailability s date city rules) = true
     <-> isActive s = false \/ exists rule, In rule rules /\ Hits s date city rule)
    /\ (resultReason (checkSlotAvailability s date city rules) = None
        <-> disabled (checkSlotAvailability s date city rules) = false).
Proof.
  intros s date city rules.
  split; [apply checkSlotAvailability_flag | apply checkSlotAvailability_reason].
Qed.

(** X17. Selecting a city or adding rules can only disable more: a slot
    disabled on a date with no city selected and some rules is disabled
    on that date for every city and every rule list that includes those
    rules. *)
Theorem checkSlotAvailability_monotone :
  forall (s : TimeSlot) (date : string) (city : option Z)
         (rules rules' : list SlotDisableRule),
    (forall rule, In rule rules -> In rule rules') ->
    disabled (checkSlotAvailability s date None rules) = true ->
    disabled (checkSlotAvailability s date city rules') = true.
Proof.
  intros s date city rules rules' Hincl H.
  apply checkSlotAvailability_flag in H. apply checkSlotAvailability_flag.
  destruct H as [H | (rule & Hin & E1 & E2 & [E3 | [E3 | (c & _ & _ & [=])]])]; [auto | |];
    right; exists rule; unfold Hits, CountsForCity; auto 10.
Qed.

Lemma checkSlotAvailability_monotone_witness :
  let s := {| id := 1; startTime := "09:00"; endTime := "12:00";
              isActive := true; label := None |} in
  let holiday := {| timeSlotId := 1; cityId := None; startDate := "2024-12-25";
                    endDate := Some "2024-12-26"; reason := None |} in
  let other := {| timeSlotId := 2; cityId := Some 7; startDate := "2024-12-25";
                  endDate := None; reason := None |} in
  (forall rule, In rule [holiday] -> In rule [other; holiday])
  /\ disabled (checkSlotAvailability s "2024-12-26" None [holiday]) = true
  /\ disabled (checkSlotAvailability s "2024-12-26" (Some 7) [other; holiday]) = true.
Proof.
  intros s holiday other.
  assert (Hincl : forall rule, In rule [holiday] -> In rule [other; holiday])
    by (intros rule [<- | []]; cbn; auto).
  assert (H : disabled (checkSlotAvailability s "2024-12-26" None [holiday]) = true)
    by reflexivity.
  split; [exact Hincl |]. split; [exact H |].
  exact (checkSlotAvailability_monotone s "2024-12-26" (Some 7) [holiday] [other; holiday]
                                        Hincl H).
Defined.

Lemma checkSlotAvailability_slot s date city rules :
  slot (checkSlotAvailability s date city rules) = s.
Proof.
  unfold checkSlotAvailability.
  destruct (checkDisabled (checkSlotActive s)); [reflexivity |].
  destruct (checkDisabled (checkDateSpecificDisable (id s) date rules)); [reflexivity |].
  destruct city as [c |]; [| reflexivity].
  destruct (truthyId (Some c)); [| reflexivity].
  destruct (checkDisabled (checkCityDateDisable (id s) date c rules)); reflexivity.
Qed.

Lemma getEnabledSlots_filter slots date city rules :
  getEnabledSlots slots date city rules
  = List.filter (fun s => negb (disabled (checkSlotAvailability s date city rules))) slots.
Proof.
  unfold getEnabledSlots, getAvailableSlots.
  induction slots as [| s slots IH]; [reflexivity |].
  cbn [map List.filter].
  destruct (negb (disabled (checkSlotAvailability s date city rules))); cbn [map].
  - rewrite checkSlotAvailability_slot, IH. reflexivity.
  - exact IH.
Qed.

(** X18. [getAvailableSlots] reports on every slot once, in the order
    given, and [getEnabledSlots] keeps, in that order, exactly the slots
    whose report is not disabled; every slot it keeps is active.  A slot
    collection that is not an array gives no report, and with a rule list
    that is not an array a slot is disabled exactly when it is inactive. *)
Theorem getEnabledSlots_selects :
  forall (slots : list TimeSlot) (date : string) (city : option Z)
         (rules : list SlotDisableRule),
    map slot (getAvailableSlots slots date city rules) = slots
    /\ getEnabledSlots slots date city rules
       = List.filter (fun s => negb (disabled (checkSlotAvailability s date city rules)))
                     slots
    /\ Forall (fun s => isActive s = true) (getEnabledSlots slots date city rules)
    /\ (forall v others, getAvailableSlotsValue (NotAnArray v) date city others = [])
    /\ (forall v,
           map disabled (getAvailableSlotsValue (AnArray slots) date city (NotAnArray v))
           = map (fun s => negb (isActive s)) slots).
Proof.
  intros slots date city rules. split; [| split; [| split; [| split]]].
  - unfold getAvailableSlots. rewrite map_map.
    induction slots as [| s slots IH]; cbn [map]; [reflexivity |].
    rewrite checkSlotAvailability_slot, IH. reflexivity.
  - apply getEnabledSlots_filter.
  - rewrite getEnabledSlots_filter. apply List.Forall_forall. intros s Hs.
    apply List.filter_In in Hs as [_ Hs]. apply negb_true_iff in Hs.
    destruct (isActive s) eqn:Eact; [reflexivity |].
    assert (disabled (checkSlotAvailability s date city rules) = true) as Hd
        by (apply checkSlotAvailability_flag; auto).
    congruence.
  - reflexivity.
  - intros v. cbn [getAvailableSlotsValue]. rewrite map_map. apply map_ext. intros s.
    unfold checkSlotAvailability, checkSlotActive.
    destruct (isActive s); cbn; [| reflexivity].
    destruct city as [c |]; [| reflexivity]. destruct (truthyId (Some c)); reflexivity.
Qed.

(** X19. When slot ids are unique, [isSlotAvailable] says whether a slot
    with the id is among the enabled slots. *)
Theorem isSlotAvailable_enabled :
  forall (slotId : Z) (slots : list TimeSlot) (date : string) (city : option Z)
         (rules : list SlotDisableRule),
    NoDup (map id slots) ->
    (isSlotAvailable slotId slots date city rules = true
     <-> exists s, In s (getEnabledSlots slots date city rules) /\ id s = slotId).
Proof.
  intros slotId slots date city rules Hnd.
  rewrite getEnabledSlots_filter. unfold isSlotAvailable.
  destruct (find (fun s => id s =? slotId) slots) as [s |] eqn:Ef.
  - apply find_some in Ef as Hs. destruct Hs as [Hin Hid]. apply Z.eqb_eq in Hid.
    cbn zeta. split.
    + intros Hb. exists s. split; [| assumption]. apply List.filter_In. auto.
    + intros (s' & Hin' & Hid'). apply List.filter_In in Hin' as [Hin' Hb].
      assert (s' = s) as <-; [| exact Hb].
      clear Hb Ef. induction slots as [| a slots IH]; [destruct Hin |].
      cbn [map] in Hnd. apply NoDup_cons_iff in Hnd as [Hna Hnd].
      destruct Hin as [-> | Hin], Hin' as [-> | Hin'].
      * reflexivity.
      * exfalso. apply Hna. rewrite Hid, <- Hid'. apply in_map. assumption.
      * exfalso. apply Hna. rewrite Hid', <- Hid. apply in_map. assumption.
      * apply IH; assumption.
  - split; [discriminate |]. intros (s & Hin & Hid).
    apply List.filter_In in Hin as [Hin _].
    pose proof (find_none _ _ Ef s Hin) as Hn. apply Z.eqb_neq in Hn. contradiction.
Qed.

Lemma isSlotAvailable_enabled_witness :
  let morning := {| id := 1; startTime := "09:00"; endTime := "12:00";
                    isActive := true; label := None |} in
  let noon := {| id := 2; startTime := "12:00"; endTime := "15:00";
                 isActive := false; label := None |} in
  NoDup (map id [morning; noon])
  /\ (isSlotAvailable 1 [morning; noon] "2024-12-25" None [] = true
      <-> exists s, In s (getEnabledSlots [morning; noon] "2024-12-25" None []) /\ id s = 1).
Proof.
  intros morning noon.
  assert (Hnd : NoDup (map id [morning; noon])).
  { cbn. repeat constructor; cbn; intuition discriminate. }
  split; [exact Hnd |].
  exact (isSlotAvailable_enabled 1 [morning; noon] "2024-12-25" None [] Hnd).
Defined.

End SlotListFacts.

(** ** White space, and the checkout fields *)

Module SpaceFacts.

Import AvailableDatesFacts.

Fixpoint allSpace (s : string) : bool :=
  match s with
  | EmptyString => true
  | String c r => isWhiteSpace c && allSpace r
  end.

Lemma trimStart_lead (s : string) :
  exists lead, s = lead ++ trimStart s /\ allSpace lead = true.
Proof.
  induction s as [| c s (lead & E & A)]; cbn [trimStart].
  - exists "". auto.
  - destruct (isWhiteSpace c) eqn:Ec.
    + exists (String c lead). cbn. rewrite Ec, A, <- E. auto.
    + exists "". auto.
Qed.

Lemma trimEnd_trail (s : string) :
  exists trail, s = trimEnd s ++ trail /\ allSpace trail = true.
Proof.
  induction s as [| c s (trail & E & A)]; cbn [trimEnd].
  - exists "". auto.
  - destruct (trimEnd s) as [| c' r'] eqn:Et.
    + cbn in E. subst s. destruct (isWhiteSpace c) eqn:Ec.
      * exists (String c trail). cbn. rewrite Ec, A. auto.
      * exists trail. auto.
    + exists trail. cbn [String.append] in *. rewrite <- E. auto.
Qed.

(** A string is its trimmed part with white space before and after. *)
Lemma trim_parts (s : string) :
  exists lead trail,
    s = lead ++ trim s ++ trail /\ allSpace lead = true /\ allSpace trail = true.
Proof.
  destruct (trimStart_lead s) as (lead & E & A).
  destruct (trimEnd_trail (trimStart s)) as (trail & E' & A').
  exists lead, trail. unfold trim. rewrite <- E', <- E. auto.
Qed.

Lemma trimStart_space_app (a s : string) :
  allSpace a = true -> trimStart (a ++ s) = trimStart s.
Proof.
  induction a as [| c a IH]; intros A; cbn in A |- *; [reflexivity |].
  apply andb_true_iff in A as [Ac A]. rewrite Ac. auto.
Qed.

Lemma trimEnd_space (a : string) : allSpace a = true -> trimEnd a = "".
Proof.
  induction a as [| c a IH]; intros A; cbn in A |- *; [reflexivity |].
  apply andb_true_iff in A as [Ac A]. rewrite (IH A), Ac. reflexivity.
Qed.

Lemma trimEnd_app_space (s a : string) :
  allSpace a = true -> trimEnd (s ++ a) = trimEnd s.
Proof.
  intros A. induction s as [| c s IH]; cbn [String.append trimEnd].
  - apply trimEnd_space, A.
  - rewrite IH. reflexivity.
Qed.

Lemma space_not_dash (c : ascii) : isWhiteSpace c = true -> Ascii.eqb c "-" = false.
Proof.
  intros H. destruct (Ascii.eqb_spec c "-") as [-> | _]; [discriminate | reflexivity].
Qed.

Lemma space_not_digit (c : ascii) : isWhiteSpace c = true -> isDigit c = false.
Proof.
  intros H. destruct (isDigit c) eqn:E; [| reflexivity].
  apply digit_not_space in E. congruence.
Qed.

Lemma split_space_app (a s : string) :
  allSpace a = true ->
  split "-" (a ++ s)
  = match split "-" s with
    | h :: t => (a ++ h) :: t
    | [] => [a ++ s]
    end.
Proof.
  induction a as [| c a IH]; intros A; cbn in A |- *.
  - destruct (split "-" s) eqn:E; [| reflexivity].
    destruct s; cbn in E; [discriminate |].
    destruct (Ascii.eqb _ _); [discriminate |]. destruct (split "-" s); discriminate.
  - apply andb_true_iff in A as [Ac A]. rewrite (space_not_dash c Ac), (IH A).
    destruct (split "-" s); reflexivity.
Qed.

Lemma split_digits_space (d a : string) :
  allDigits d = true -> allSpace a = true -> split "-" (d ++ a) = [d ++ a].
Proof.
  intros D A. induction d as [| c d IH]; cbn in D |- *.
  - induction a as [| x a IHa]; cbn in A |- *; [reflexivity |].
    apply andb_true_iff in A as [Ax A]. rewrite (space_not_dash x Ax), (IHa A). reflexivity.
  - apply andb_true_iff in D as [Dc D]. rewrite (digit_not_dash c Dc), (IH D). reflexivity.
Qed.

Lemma digitsOnly_space (a : string) : allSpace a = true -> digitsOnly a = "".
Proof.
  induction a as [| c a IH]; intros A; cbn in A |- *; [reflexivity |].
  apply andb_true_iff in A as [Ac A]. rewrite (space_not_digit c Ac). auto.
Qed.

Lemma digitsOnly_append (a b : string) : digitsOnly (a ++ b) = digitsOnly a ++ digitsOnly b.
Proof.
  induction a as [| c a IH]; cbn; [reflexivity |].
  destruct (isDigit c); cbn; rewrite IH; reflexivity.
Qed.

(** A string with a digit in it is not blank. *)
Lemma digits_not_blank (s : string) : digitsOnly s <> "" -> trim s <> "".
Proof.
  intros Hd Ht. destruct (trim_parts s) as (lead & trail & E & Al & At).
  rewrite Ht in E. cbn in E. apply Hd. rewrite E, digitsOnly_append.
  rewrite (digitsOnly_space lead Al), (digitsOnly_space trail At). reflexivity.
Qed.

End SpaceFacts.

Module CheckoutFieldFacts.

Import DateAvailability NormalizeFacts AvailableDatesFacts SpaceFacts CheckoutValidator.

Lemma isNonEmpty_spec value : isNonEmpty value = true <-> trim value <> "".
Proof.
  unfold isNonEmpty. destruct (trim value); cbn; split; congruence.
Qed.

(** The numbers [validateDeliveryDate] reads from a text whose trimmed
    part is [y-m-d]. *)
Lemma date_parts text y m d :
  trim text = y ++ "-" ++ m ++ "-" ++ d ->
  Digits 4 y -> Digits 2 m -> Digits 2 d ->
  map Number (split "-" text)
  = [Some (decimalValue y); Some (decimalValue m); Some (decimalValue d)].
Proof.
  intros Et Dy Dm Dd.
  destruct (trim_parts text) as (lead & trail & E & Al & At).
  rewrite Et in E. rewrite E.
  rewrite (split_space_app lead _ Al).
  rewrite !append_assoc.
  rewrite (split_digits_more y _ (proj2 Dy)), (split_digits_more m _ (proj2 Dm)).
  rewrite (split_digits_space d trail (proj2 Dd) At). cbn [map].
  assert (Number (lead ++ y) = Some (decimalValue y)) as ->.
  { unfold Number, trim. rewrite (trimStart_space_app lead y Al).
    fold (trim y). rewrite (trim_digits _ y Dy).
    destruct Dy as [L A]. destruct y; [discriminate |]. rewrite A. reflexivity. }
  assert (Number (d ++ trail) = Some (decimalValue d)) as ->.
  { unfold Number, trim.
    destruct Dd as [L A]. destruct d as [| c d]; [discriminate |].
    pose proof A as A'. cbn in A'. apply andb_true_iff in A' as [Ac _].
    cbn [String.append]. rewrite (trimStart_digit_first c _ Ac).
    change (String c (d ++ trail)) with (String c d ++ trail).
    rewrite (trimEnd_app_space _ trail At), (trimEnd_digits _ A), A. reflexivity. }
  rewrite (Number_digits _ m Dm). reflexivity.
Qed.

Lemma getMonth_range date : 0 <= getMonth date <= 11.
Proof. apply MonthFromDay_range. Qed.

Lemma getDate_range date : 1 <= getDate date <= 31.
Proof. apply DateFromDay_range. Qed.

(** The round trip alone bounds the month and the day. *)
Lemma isValidDate_spec y m d :
  isValidDate [Some y; Some m; Some d] = true <-> RealDate y m d.
Proof.
  unfold isValidDate, RealDate. rewrite !andb_true_iff, !Z.eqb_eq.
  pose proof (getMonth_range (newDate y (m - 1) d)) as Hm.
  pose proof (getDate_range (newDate y (m - 1) d)) as Hd.
  generalize dependent (getMonth (newDate y (m - 1) d)).
  generalize dependent (getDate (newDate y (m - 1) d)).
  generalize (getFullYear (newDate y (m - 1) d)).
  intros yy dd Hd mm Hm. lia.
Qed.

Lemma validateDeliveryDate_ok text :
  validateDeliveryDate text = [] <-> normalizeDate text = Some (trim text).
Proof.
  unfold validateDeliveryDate, push, datePattern. cbn [app].
  split.
  - destruct (isNonEmpty text); cbn [negb]; [| discriminate].
    destruct (isoPattern (trim text)) as [[[y m] d] |] eqn:Ei; cbn [negb]; [| discriminate].
    apply isoPattern_spec in Ei as (Et & Dy & Dm & Dd).
    rewrite (date_parts text y m d Et Dy Dm Dd).
    destruct (isValidDate _) eqn:Ev; cbn [negb]; [| discriminate]. intros _.
    apply isValidDate_spec in Ev. apply normalizeDate_Some. exists y, m, d.
    unfold DateText. auto 10.
  - intros H. apply normalizeDate_Some in H as (y & m & d & (Dy & Dm & Dd & Ht) & Hreal & Et).
    destruct Ht as [_ | Ht].
    2: { exfalso. rewrite Et in Ht. exact (iso_not_euro _ _ _ _ _ _ Dy Dd Ht). }
    assert (isNonEmpty text = true) as ->.
    { apply isNonEmpty_spec. rewrite Et. destruct y; [destruct Dy; discriminate | discriminate]. }
    assert (isoPattern (trim text) = Some (y, m, d)) as -> by (apply isoPattern_spec; auto).
    cbn [negb]. rewrite (date_parts text y m d Et Dy Dm Dd).
    apply isValidDate_spec in Hreal. rewrite Hreal. reflexivity.
Qed.

(** X20. The checkout validator and the date service agree on what a
    date is: [validateDeliveryDate] reports no error exactly when
    [normalizeDate] accepts the text and returns it trimmed, that is when
    the text, white space around it apart, is [YYYY-MM-DD] and names a day
    of the calendar; it reports one error otherwise. *)
Theorem validateDeliveryDate_normalizeDate :
  forall text : string,
    (validateDeliveryDate text = [] <-> normalizeDate text = Some (trim text))
    /\ (List.length (validateDeliveryDate text) <= 1)%nat.
Proof.
  intros text. split; [apply validateDeliveryDate_ok |].
  unfold validateDeliveryDate, push.
  destruct (negb (isNonEmpty text)); [cbn; lia |].
  destruct (negb (datePattern (trim text))); [cbn; lia |].
  destruct (negb (isValidDate _)); cbn; lia.
Qed.

Lemma app_nil_iff {A} (l1 l2 : list A) : (l1 ++ l2)%list = [] <-> l1 = [] /\ l2 = [].
Proof. destruct l1; cbn; split; [auto | tauto | discriminate | intros [? _]; discriminate]. Qed.

Lemma errors_validateCheckout fields :
  errors (validateCheckout fields)
  = (validateFullName (fullName fields)
       ++ validatePhoneNumber (phoneNumber fields)
       ++ validateDeliveryAddress (deliveryAddress fields)
       ++ validateDeliveryDate (deliveryDate fields)
       ++ validateDeliveryTimeSlot (deliveryTimeSlot fields))%list.
Proof.
  unfold validateCheckout, push. cbn [errors]. rewrite app_nil_l, <- !app_assoc. reflexivity.
Qed.

Lemma isCheckoutEligible_errors fields :
  isCheckoutEligible fields = true <-> errors (validateCheckout fields) = [].
Proof.
  unfold isCheckoutEligible, validateCheckout. cbn [isValid errors].
  rewrite Nat.eqb_eq. apply length_zero_iff_nil.
Qed.

(** X21. What makes a checkout eligible: a name and an address that are
    not blank, a phone number with at least seven digits (whatever else it
    contains), a delivery date the date service accepts as [YYYY-MM-DD],
    and a positive slot id. *)
Theorem isCheckoutEligible_iff :
  forall fields : CheckoutFields,
    isCheckoutEligible fields = true
    <-> trim (fullName fields) <> ""
        /\ (7 <= String.length (digitsOnly (phoneNumber fields)))%nat
        /\ trim (deliveryAddress fields) <> ""
        /\ normalizeDate (deliveryDate fields) = Some (trim (deliveryDate fields))
        /\ 0 < deliveryTimeSlot fields.
Proof.
  intros fields.
  rewrite isCheckoutEligible_errors, errors_validateCheckout, !app_nil_iff.
  rewrite validateDeliveryDate_ok.
  assert (Hname : forall v msg,
             (if negb (isNonEmpty v) then push [] [msg] else []) = [] <-> trim v <> "").
  { intros v msg. rewrite <- isNonEmpty_spec.
    destruct (isNonEmpty v); cbn; split; congruence. }
  assert (Hphone : validatePhoneNumber (phoneNumber fields) = []
                   <-> (7 <= String.length (digitsOnly (phoneNumber fields)))%nat).
  { unfold validatePhoneNumber, push. cbn [app].
    destruct (isNonEmpty (phoneNumber fields)) eqn:En; cbn [negb].
    - destruct (Nat.ltb_spec (String.length (digitsOnly (phoneNumber fields))) 7);
        split; [discriminate | lia | lia | reflexivity].
    - split; [discriminate |]. intros H. exfalso.
      assert (trim (phoneNumber fields) <> "") as Ht.
      { apply digits_not_blank. intros E. rewrite E in H. cbn in H. lia. }
      apply isNonEmpty_spec in Ht. congruence. }
  assert (Hslot : validateDeliveryTimeSlot (deliveryTimeSlot fields) = []
                  <-> 0 < deliveryTimeSlot fields).
  { unfold validateDeliveryTimeSlot, push. cbn [app].
    destruct (Z.eqb_spec (deliveryTimeSlot fields) 0), (Z.leb_spec (deliveryTimeSlot fields) 0);
      cbn; split; try discriminate; try lia; reflexivity. }
  unfold validateFullName, validateDeliveryAddress.
  rewrite !Hname, Hphone, Hslot. tauto.
Qed.

(** X22. [getFirstCheckoutError] is null exactly when the checkout is
    eligible, and otherwise the head of the error list; a checkout has at
    most five errors, one per field, and the empty form of
    [createEmptyCheckoutFields] has all five. *)
Theorem getFirstCheckoutError_head :
  forall fields : CheckoutFields,
    match getFirstCheckoutError fields with
    | None => isCheckoutEligible fields = true /\ errors (validateCheckout fields) = []
    | Some first =>
        isCheckoutEligible fields = false
        /\ exists rest, errors (validateCheckout fields) = first :: rest
    end
    /\ (List.length (errors (validateCheckout fields)) <= 5)%nat
    /\ errors (validateCheckout createEmptyCheckoutFields)
       = [ FULL_NAME_REQUIRED; PHONE_NUMBER_REQUIRED; DELIVERY_ADDRESS_REQUIRED;
           DELIVERY_DATE_REQUIRED; DELIVERY_TIME_SLOT_REQUIRED ].
Proof.
  intros fields. split; [| split; [| reflexivity]].
  - unfold getFirstCheckoutError.
    pose proof (isCheckoutEligible_errors fields) as H.
    destruct (errors (validateCheckout fields)) as [| first rest].
    + split; [apply H |]; reflexivity.
    + split; [| eauto]. apply not_true_is_false. intros Ht. apply H in Ht. discriminate.
  - rewrite errors_validateCheckout, !length_app.
    assert (List.length (validateFullName (fullName fields)) <= 1)%nat
      by (unfold validateFullName; destruct (negb _); cbn; lia).
    assert (List.length (validatePhoneNumber (phoneNumber fields)) <= 1)%nat.
    { unfold validatePhoneNumber. destruct (negb _); [cbn; lia |].
      destruct (_ <? _)%nat; cbn; lia. }
    assert (List.length (validateDeliveryAddress (deliveryAddress fields)) <= 1)%nat
      by (unfold validateDeliveryAddress; destruct (negb _); cbn; lia).
    assert (List.length (validateDeliveryDate (deliveryDate fields)) <= 1)%nat.
    { unfold validateDeliveryDate, push.
      destruct (negb (isNonEmpty _)); [cbn; lia |].
      destruct (negb (datePattern _)); [cbn; lia |].
      destruct (negb (isValidDate _)); cbn; lia. }
    assert (List.length (validateDeliveryTimeSlot (deliveryTimeSlot fields)) <= 1)%nat
      by (unfold validateDeliveryTimeSlot; destruct (_ || _); cbn; lia).
    lia.
Qed.

End CheckoutFieldFacts.

(** ** Merging carts, trimming inputs *)

Module CartMergeFacts.

Import CartDelay CartDelayFacts.

Lemma fold_max_from {A} (f : A -> Z) (l : list A) (a : Z) :
  0 <= a ->
  fold_left (fun m x => Z.max m (f x)) l a
  = Z.max a (fold_left (fun m x => Z.max m (f x)) l 0).
Proof.
  revert a. induction l as [| x l IH]; intros a Ha; cbn [fold_left]; [lia |].
  rewrite (IH (Z.max a (f x))), (IH (Z.max 0 (f x))) by lia. lia.
Qed.

Lemma fold_max_app {A} (f : A -> Z) (l1 l2 : list A) :
  fold_left (fun m x => Z.max m (f x)) (l1 ++ l2)%list 0
  = Z.max (fold_left (fun m x => Z.max m (f x)) l1 0)
          (fold_left (fun m x => Z.max m (f x)) l2 0).
Proof.
  rewrite fold_left_app. apply fold_max_from.
  exact (proj1 (fold_left_max f l1 0)).
Qed.

Lemma calculateCartDelay_fold products :
  calculateCartDelay products
  = fold_left (fun m p => Z.max m (getProductDelay p)) products 0.
Proof. destruct products; reflexivity. Qed.

Lemma getProductDelay_fold product :
  getProductDelay product
  = fold_left (fun m tag => Z.max m (parseDelayFromTag tag)) (tagList product) 0.
Proof. unfold getProductDelay, tagList. destruct (tags product); reflexivity. Qed.

(** X23. Cart delays merge by maximum: the delay of two carts put
    together is the larger of their delays, whichever comes first, and
    the delay of a cart is the delay of one product that carries all the
    tags of the cart. *)
Theorem calculateCartDelay_merge :
  forall a b : list CartProduct,
    calculateCartDelay (a ++ b) = Z.max (calculateCartDelay a) (calculateCartDelay b)
    /\ calculateCartDelay (a ++ b) = calculateCartDelay (b ++ a)
    /\ calculateCartDelay a
       = getProductDelay {| tags := TagArray (flat_map tagList a) |}.
Proof.
  intros a b. rewrite !calculateCartDelay_fold, !fold_max_app.
  split; [reflexivity |]. split; [lia |].
  rewrite getProductDelay_fold. cbn [tagList tags].
  induction a as [| p a IH]; [reflexivity |].
  change (p :: a) with ([p] ++ a)%list. rewrite fold_max_app. cbn [flat_map app].
  rewrite fold_max_app, <- IH. cbn [fold_left]. rewrite getProductDelay_fold.
  pose proof (fold_left_max parseDelayFromTag (tagList p) 0) as [H _]. lia.
Qed.

End CartMergeFacts.

Module TrimFacts.

Import DateAvailability CityCutoff CartDelay SpaceFacts.

Lemma trimEnd_idem (s : string) : trimEnd (trimEnd s) = trimEnd s.
Proof.
  induction s as [| c s IH]; cbn [trimEnd]; [reflexivity |].
  destruct (trimEnd s) as [| c' r'] eqn:E.
  - destruct (isWhiteSpace c) eqn:Ec; cbn [trimEnd]; [reflexivity |]. rewrite Ec. reflexivity.
  - cbn [trimEnd] in IH |- *. rewrite IH. reflexivity.
Qed.

Lemma trimStart_head (s : string) :
  match trimStart s with
  | String c _ => isWhiteSpace c = false
  | EmptyString => True
  end.
Proof.
  induction s as [| c s IH]; cbn [trimStart]; [exact I |].
  destruct (isWhiteSpace c) eqn:Ec; [exact IH | exact Ec].
Qed.

Lemma trimStart_trim (s : string) : trimStart (trim s) = trim s.
Proof.
  unfold trim. pose proof (trimStart_head s) as H.
  destruct (trimStart s) as [| c r]; [reflexivity |].
  cbn [trimEnd]. destruct (trimEnd r); rewrite ?H; cbn [trimStart]; rewrite H; reflexivity.
Qed.

Lemma trim_idem (s : string) : trim (trim s) = trim s.
Proof. unfold trim at 1. rewrite trimStart_trim. unfold trim. apply trimEnd_idem. Qed.

(** X24. White space around the input never matters to the three
    parsers: a tag, a date text and a time text give the same result
    trimmed and untrimmed. *)
Theorem parsers_ignore_surrounding_space :
  forall s : string,
    parseDelayFromTag (trim s) = parseDelayFromTag s
    /\ normalizeDate (trim s) = normalizeDate s
    /\ parseTime (trim s) = parseTime s.
Proof.
  intros s. split; [| split].
  - unfold parseDelayFromTag. rewrite trim_idem. reflexivity.
  - unfold normalizeDate. rewrite trim_idem.
    destruct s as [| c s]; [reflexivity |]. cbn [truthy atEnd negb].
    destruct (trim (String c s)); reflexivity.
  - unfold parseTime. rewrite trim_idem.
    destruct s as [| c s]; [reflexivity |]. cbn [truthy atEnd negb].
    destruct (trim (String c s)); reflexivity.
Qed.

End TrimFacts.

(** ** Rules loaded from the database *)

Module ConfigFacts.

Import DateAvailability DeliveryConfig NormalizeFacts AvailableDatesFacts DateTextFacts
       WindowFacts DisabledSetFacts DateOrderFacts.

(** The date lies in the years that print as four digits. *)
Definition FourDigitYear (d : Date) : Prop := 1000 <= getFullYear d <= 9999.









(** The days a row of the slot rules covers: from its start date to
    its end date, and every day from its start date on when it has no end
    date. *)
Definition SlotRowCovers (row : DisableTimeSlotRulesRow) (day : Z) : Prop :=
  Day (timeValue (slotRuleStartDate row)) <= day
  /\ match slotRuleEndDate row with
     | Some e => day <= Day (timeValue e)
     | None => True
     end.

Definition SlotRowInRange (row : DisableTimeSlotRulesRow) : Prop :=
  FourDigitYear (slotRuleStartDate row)
  /\ match slotRuleEndDate row with Some e => FourDigitYear e | None => True end.

Lemma isDateInRange_loaded row day :
  SlotRowInRange row -> 1000 <= YearFromDay day <= 9999 ->
  (SlotAvailability.isDateInRange
     (canonical day)
     (formatDateToString (slotRuleStartDate row))
     match slotRuleEndDate row with
     | Some e => Some (formatDateToString e)
     | None => None
     end = true
   <-> SlotRowCovers row day).
Proof.
  intros [Hs He] Hd. unfold SlotAvailability.isDateInRange, SlotRowCovers.
  rewrite formatDateToString_canonical, (ltb_canonical _ _ Hd Hs).
  destruct (slotRuleEndDate row) as [e |].
  - rewrite formatDateToString_canonical, (ltb_canonical _ _ He Hd), canonical_truthy.
    cbn [andb].
    destruct (Z.ltb_spec day (Day (timeValue (slotRuleStartDate row)))),
      (Z.ltb_spec (Day (timeValue e)) day); split; intros; try lia; try discriminate;
      reflexivity.
  - destruct (Z.ltb_spec day (Day (timeValue (slotRuleStartDate row))));
      split; intros; try lia; try discriminate; try reflexivity; try tauto.
Qed.

(** X26. Slot rules from the database, end to end: with the rules
    [loadSlotDisableRules] builds from the rows, a slot is disabled on a
    day exactly when it is inactive or some row is for the slot, counts
    for the city and covers the day, a row covering the days from its
    start date to its end date and, unlike a date rule, every day from its
    start date on when it has no end date.  The dates of the rows and the
    day lie in the years 1000 to 9999. *)
Theorem checkSlotAvailability_loaded_rules :
  forall (rows : list DisableTimeSlotRulesRow) (s : SlotAvailability.TimeSlot) (day : Z)
         (city : option Z),
    Forall SlotRowInRange rows ->
    1000 <= YearFromDay day <= 9999 ->
    (SlotAvailability.disabled
       (SlotAvailability.checkSlotAvailability s (canonical day) city
                                               (loadSlotDisableRules rows)) = true
     <-> SlotAvailability.isActive s = false
         \/ exists row,
             In row rows
             /\ slotRuleTimeSlotId row = SlotAvailability.id s
             /\ CountsForCity (slotRuleCityId row) city
             /\ SlotRowCovers row day).
Proof.
  intros rows s day city Hrows Hd. rewrite List.Forall_forall in Hrows.
  rewrite SlotListFacts.checkSlotAvailability_flag. unfold SlotListFacts.Hits.
  apply or_iff_compat_l. unfold loadSlotDisableRules. split.
  - intros (rule & Hin & E1 & E2 & E3). apply in_map_iff in Hin as (row & <- & Hin).
    cbn in E1, E2, E3. exists row. repeat split; try assumption;
      apply (isDateInRange_loaded row day (Hrows row Hin) Hd), E2.
  - intros (row & Hin & E1 & E3 & E2). eexists. split; [apply in_map_iff; eauto |].
    cbn. repeat split; try assumption.
    apply (isDateInRange_loaded row day (Hrows row Hin) Hd), E2.
Qed.

Lemma checkSlotAvailability_loaded_rules_witness :
  let rows := [ {| slotRuleTimeSlotId := 1; slotRuleCityId := None;
                   slotRuleStartDate := localDateTime 2024 12 25 0 0;
                   slotRuleEndDate := None; slotRuleReason := None |} ] in
  let s := {| SlotAvailability.id := 1; SlotAvailability.startTime := "09:00";
              SlotAvailability.endTime := "12:00"; SlotAvailability.isActive := true;
              SlotAvailability.label := None |} in
  let day := Day (timeValue (newDate 2025 0 15)) in
  Forall SlotRowInRange rows
  /\ 1000 <= YearFromDay day <= 9999
  /\ SlotAvailability.disabled
       (SlotAvailability.checkSlotAvailability s (canonical day) (Some 7)
                                               (loadSlotDisableRules rows)) = true.
Proof.
  intros rows s day.
  assert (Hrows : Forall SlotRowInRange rows).
  { repeat constructor; vm_compute; intuition discriminate. }
  assert (Hd : 1000 <= YearFromDay day <= 9999) by (vm_compute; split; discriminate).
  split; [exact Hrows |]. split; [exact Hd |].
  apply (proj2 (checkSlotAvailability_loaded_rules rows s day (Some 7) Hrows Hd)).
  right. eexists. split; [left; reflexivity |].
  split; [reflexivity |]. split; [left; reflexivity |].
  split; [vm_compute; discriminate | exact I].
Defined.

End ConfigFacts.

(** ** The slot service with single-day rules *)

Module DatedSlotFacts.

Import DatedSlotAvailability.

(** The rule is for the slot and the date, and counts for the city: it
    has no city id, or an empty one, or the id of the selected city. *)
Definition HitsOn (s : TimeSlot) (day : string) (city : option string)
           (rule : SlotDisableRule) : Prop :=
  slotId rule = id s
  /\ date rule = Some day
  /\ (cityId rule = None \/ cityId rule = Some ""
      \/ exists c, c <> "" /\ cityId rule = Some c /\ city = Some c).

Lemma strictEqStr_spec a b : strictEqStr a b = true <-> a = Some b.
Proof.
  destruct a as [x |]; cbn; [| split; discriminate].
  rewrite String.eqb_eq. split; congruence.
Qed.

Lemma falsy_text (o : option string) : truthyStr o = false <-> o = None \/ o = Some "".
Proof.
  destruct o as [[| c s] |]; cbn; split; auto; try discriminate.
  - intros [H | H]; discriminate.
Qed.

Lemma checkDateSpecificDisable_some s day rules :
  checkDisabled (checkDateSpecificDisable s day rules) = true
  <-> exists rule,
      In rule rules /\ slotId rule = s /\ date rule = Some day
      /\ (cityId rule = None \/ cityId rule = Some "").
Proof.
  unfold checkDateSpecificDisable.
  match goal with |- context [find ?p rules] => set (pd := p) end.
  assert (checkDisabled match find pd rules with
                         | Some _ =>
                             {| checkDisabled := true;
                                checkReason := Some ("Disabled on " ++ day) |}
                         | None => {| checkDisabled := false; checkReason := None |}
                         end
          = existsb pd rules) as ->.
  { rewrite <- SlotListFacts.find_existsb. destruct (find pd rules); reflexivity. }
  rewrite existsb_exists.
  split; intros (rule & Hin & Hp); exists rule; (split; [assumption |]);
    unfold pd in *;
    rewrite !andb_true_iff, String.eqb_eq, strictEqStr_spec, negb_true_iff, falsy_text in *;
    tauto.
Qed.

Lemma checkCityDateDisable_some s day c rules :
  checkDisabled (checkCityDateDisable s day c rules) = true
  <-> exists rule,
      In rule rules /\ slotId rule = s /\ date rule = Some day /\ cityId rule = Some c.
Proof.
  unfold checkCityDateDisable.
  match goal with |- context [find ?p rules] => set (pc := p) end.
  assert (checkDisabled match find pc rules with
                         | Some _ =>
                             {| checkDisabled := true;
                                checkReason := Some ("Disabled for this city on " ++ day) |}
                         | None => {| checkDisabled := false; checkReason := None |}
                         end
          = existsb pc rules) as ->.
  { rewrite <- SlotListFacts.find_existsb. destruct (find pc rules); reflexivity. }
  rewrite existsb_exists.
  split; intros (rule & Hin & Hp); exists rule; (split; [assumption |]);
    unfold pc in *; rewrite !andb_true_iff, String.eqb_eq, !strictEqStr_spec in *; tauto.
Qed.

(** X27. The slot service with single-day rules: a slot is disabled on
    a date exactly when it is globally disabled or some rule names the
    slot and that very date text and counts for the selected city (a rule
    without a city id, or with an empty one, counts whatever the city);
    a rule without a date never disables anything. *)
Theorem dated_checkSlotAvailability_any_rule :
  forall (s : TimeSlot) (day : string) (city : option string) (rules : list SlotDisableRule),
    (disabled (checkSlotAvailability s day city rules) = true
     <-> isGloballyDisabled s = true \/ exists rule, In rule rules /\ HitsOn s day city rule)
    /\ disabled (checkSlotAvailability s day city
                   (List.filter (fun rule => match date rule with
                                             | Some _ => true
                                             | None => false
                                             end) rules))
       = disabled (checkSlotAvailability s day city rules).
Proof.
  assert (Hflag : forall s day city rules,
             disabled (checkSlotAvailability s day city rules) = true
             <-> isGloballyDisabled s = true
                 \/ exists rule, In rule rules /\ HitsOn s day city rule).
  { intros s day city rules. unfold checkSlotAvailability, checkGlobalDisable, HitsOn.
    destruct (isGloballyDisabled s) eqn:Eg; cbn [checkDisabled checkReason disabled].
    { split; auto. }
    pose proof (checkDateSpecificDisable_some (id s) day rules) as Hd.
    destruct (checkDisabled (checkDateSpecificDisable (id s) day rules)); cbn [disabled].
    { split; [intros _ | reflexivity]. right.
      destruct (proj1 Hd eq_refl) as (rule & Hin & E1 & E2 & E3). exists rule. tauto. }
    assert (Hnd : forall rule, In rule rules -> slotId rule = id s -> date rule = Some day ->
                               ~ (cityId rule = None \/ cityId rule = Some "")).
    { intros rule Hin E1 E2 E3. assert (false = true) as Hf by (apply Hd; eauto 10).
      discriminate. }
    destruct city as [c |].
    - destruct (truthyStr (Some c)) eqn:Et.
      + assert (Hc : c <> "") by (intros ->; discriminate).
        pose proof (checkCityDateDisable_some (id s) day c rules) as Hcity.
        destruct (checkDisabled (checkCityDateDisable (id s) day c rules));
          cbn [disabled].
        * split; [intros _ | reflexivity]. right.
          destruct (proj1 Hcity eq_refl) as (rule & Hin & E1 & E2 & E3).
          exists rule. repeat split; try assumption. right. right. eauto.
        * split; [discriminate |].
          intros [H | (rule & Hin & E1 & E2 & [E3 | [E3 | (c' & Hc' & E3 & [= <-])]])];
            [discriminate | | |];
            [exfalso; apply (Hnd rule Hin E1 E2); auto
            | exfalso; apply (Hnd rule Hin E1 E2); auto |].
          apply Hcity. eauto 10.
      + apply falsy_text in Et as [Et | Et]; [discriminate |]. injection Et as ->.
        cbn [disabled]. split; [discriminate |].
        intros [H | (rule & Hin & E1 & E2 & [E3 | [E3 | (c' & Hc & E3 & [= <-])]])];
          [discriminate | | | congruence]; exfalso; apply (Hnd rule Hin E1 E2); auto.
    - cbn [disabled]. split; [discriminate |].
      intros [H | (rule & Hin & E1 & E2 & [E3 | [E3 | (c & Hc & E3 & [=])]])];
        [discriminate | |]; exfalso; apply (Hnd rule Hin E1 E2); auto. }
  intros s day city rules. split; [apply Hflag |].
  match goal with |- ?a = ?b => destruct a eqn:Ea, b eqn:Eb; try reflexivity end.
  - apply Hflag in Ea. apply not_true_iff_false in Eb. exfalso. apply Eb, Hflag.
    destruct Ea as [H | (rule & Hin & Hh)]; [auto |]. right. exists rule.
    apply List.filter_In in Hin as [Hin _]. auto.
  - apply Hflag in Eb. apply not_true_iff_false in Ea. exfalso. apply Ea, Hflag.
    destruct Eb as [H | (rule & Hin & Hh)]; [auto |]. right. exists rule.
    split; [| assumption]. apply List.filter_In. split; [assumption |].
    destruct Hh as (_ & -> & _). reflexivity.
Qed.

End DatedSlotFacts.

(** ** Single-day slot rules *)

Module SingleDayFacts.

Import SlotAvailability.

Lemma compare_same (s : string) : String.compare s s = Eq.
Proof.
  induction s as [| c s IH]; cbn; [reflexivity |].
  unfold Ascii.compare. rewrite N.compare_refl. exact IH.
Qed.

(** X28. In the range test of the slot rules, a rule that starts and
    ends on the same date text covers that text and no other, whatever
    the texts are; so a slot rule meant for a single day needs its end
    date set to its start date. *)
Theorem isDateInRange_single_day :
  forall date day : string,
    day <> "" ->
    (isDateInRange date day (Some day) = true <-> date = day).
Proof.
  intros date day Hne. unfold isDateInRange, String.ltb.
  assert (truthy day = true) as -> by (apply truthy_true; assumption).
  cbn [andb]. rewrite (String.compare_antisym day date).
  destruct (String.compare date day) eqn:E; cbn [CompOpp].
  - apply String.compare_eq_iff in E. split; auto.
  - split; [discriminate |]. intros ->. rewrite compare_same in E. discriminate.
  - split; [discriminate |]. intros ->. rewrite compare_same in E. discriminate.
Qed.

Lemma isDateInRange_single_day_witness :
  "2024-12-25" <> ""
  /\ (isDateInRange "2024-12-26" "2024-12-25" (Some "2024-12-25") = true
      <-> "2024-12-26" = "2024-12-25").
Proof.
  assert (Hne : "2024-12-25" <> "") by discriminate.
  split; [exact Hne |].
  exact (isDateInRange_single_day "2024-12-26" "2024-12-25" Hne).
Defined.

End SingleDayFacts.
